(** * Customer service of API_CRUD_DE_CLIENTES: shallow embedding and properties

    Embeds [models/modelo.py] (tables [clientes] and [pedidos] with their
    column constraints), [middleware/cliente_schema.py] ([ClienteCreate],
    [ClienteUpdate]) and [services/regras_de_negocio.py] ([ClienteService]).

    The relational store is a pair of row lists in insertion order.  A
    service method is a function from the committed store to a result and the
    store left behind; an exception leaves the store as it was when raised,
    which is what the request-scoped session of [database/sessao.py] gives
    (uncommitted work is dropped when the session is closed). *)

From Stdlib Require Import List ZArith String Ascii Bool Lia.
Import ListNotations.

Local Open Scope string_scope.
Local Open Scope Z_scope.

(** ** Data model: [models/modelo.py] *)

Module Cliente.
(** A row of [clientes].  Columns declared [nullable=False] (and the
    primary key) carry a value; every other column may be NULL.
    [data_criacao] is the UTC clock reading taken on insertion. *)
Record t : Type := mk {
  id : Z;
  nome : string;
  email : string;
  idade : option Z;
  cpf : string;
  cnpj : option string;
  cep : option string;
  endereco : option string;
  telefone : option string;
  data_criacao : Z
}.
End Cliente.

Module Pedido.
(** A row of [pedidos]; [valor_total] (a float) plays no part in the
    customer service and is left out. *)
Record t : Type := mk {
  id : Z;
  data_pedido : Z;
  status : string;
  cliente_id : Z;
  funcionario_id : option Z
}.
End Pedido.

(** ** Schemas: [middleware/cliente_schema.py] *)

Module ClienteCreate.
(** [ClienteBase]/[ClienteCreate]: name, email and cpf required, the rest
    optional with default [None]. *)
Record t : Type := mk {
  nome : string;
  email : string;
  idade : option Z;
  cpf : string;
  cnpj : option string;
  cep : option string;
  endereco : option string;
  telefone : option string
}.
End ClienteCreate.

Module ClienteUpdate.
(** [ClienteUpdate]: five optional fields.  Each is [None] when the field
    was not set, [Some None] when it was set to null, [Some (Some v)] when
    it was set to [v]; this is what [model_dump(exclude_unset=True)]
    distinguishes. *)
Record t : Type := mk {
  nome : option (option string);
  email : option (option string);
  idade : option (option Z);
  telefone : option (option string);
  endereco : option (option string)
}.

Definition vazio : t := mk None None None None None.

(** Attribute access [cliente_data.email]: the value, or [None] when the
    field is unset or null. *)
Definition get_email (u : t) : option string :=
  match email u with
  | Some (Some e) => Some e
  | _ => None
  end.
End ClienteUpdate.

(** ** Store and exceptions *)

Record Banco : Type := mkBanco {
  clientes : list Cliente.t;
  pedidos : list Pedido.t
}.

Definition banco_vazio : Banco := mkBanco [] [].

Definition HTTP_400_BAD_REQUEST : Z := 400.
Definition HTTP_404_NOT_FOUND : Z := 404.

(** The [detail] messages of the service, kept structured: each constructor
    is one message template with the values it interpolates. *)
Inductive Detalhe : Type :=
| ClienteIdNaoEncontrado (cliente_id : Z)
| ClienteCpfNaoEncontrado (cpf : string)
| CpfJaCadastrado (cpf : string)
| EmailJaCadastrado (email : string)
| ClienteComPedidos (n : nat).

(** [HTTPException] is raised by the service itself; [IntegrityError] by the
    store when a commit breaks a column constraint of [modelo.py]. *)
Inductive Excecao : Type :=
| HTTPException (status_code : Z) (detail : Detalhe)
| IntegrityError.

Inductive Resultado (A : Type) : Type :=
| Ok (a : A)
| Raise (e : Excecao).
Arguments Ok {A} a.
Arguments Raise {A} e.

(** ** The service monad: store passing with exceptions *)

Definition Servico (A : Type) : Type := Banco -> Resultado A * Banco.

Definition ret {A : Type} (a : A) : Servico A := fun db => (Ok a, db).

Definition raise {A : Type} (e : Excecao) : Servico A := fun db => (Raise e, db).

Definition bind {A B : Type} (m : Servico A) (k : A -> Servico B) : Servico B :=
  fun db =>
    match m db with
    | (Ok a, db') => k a db'
    | (Raise e, db') => (Raise e, db')
    end.

Notation "x <- m ;; k" := (bind m (fun x => k))
  (at level 61, m at next level, right associativity).
Notation "m ;; k" := (bind m (fun _ => k))
  (at level 61, right associativity).

(** ** Session primitives *)

Definition opt_eqb (a : option string) (b : string) : bool :=
  match a with
  | Some x => String.eqb x b
  | None => false
  end.

(** [db.query(Cliente).filter(p).first()]: the first matching row, in table
    order. *)
Definition query_first (p : Cliente.t -> bool) : Servico (option Cliente.t) :=
  fun db => (Ok (find p (clientes db)), db).

(** [db.query(Cliente).filter(p).all()] *)
Definition query_all (p : Cliente.t -> bool) : Servico (list Cliente.t) :=
  fun db => (Ok (filter p (clientes db)), db).

(** [db.query(Cliente).count()] *)
Definition query_count : Servico nat :=
  fun db => (Ok (List.length (clientes db)), db).

(** [cliente.pedidos]: the relationship loads the orders whose foreign key
    is the customer's id. *)
Definition rel_pedidos (cliente : Cliente.t) : Servico (list Pedido.t) :=
  fun db =>
    (Ok (filter (fun p => Z.eqb (Pedido.cliente_id p) (Cliente.id cliente))
                (pedidos db)), db).

(** Integer primary key: the next id is one more than the largest in the
    table (1 in an empty table). *)
Definition proximo_id (cs : list Cliente.t) : Z :=
  Z.succ (fold_right Z.max 0 (map Cliente.id cs)).

(** The object built from [cliente_data.model_dump()], once flushed: the id and the
    creation timestamp are filled in by the store. *)
Definition Cliente_novo (novo_id agora : Z) (d : ClienteCreate.t) : Cliente.t :=
  Cliente.mk novo_id (ClienteCreate.nome d) (ClienteCreate.email d)
             (ClienteCreate.idade d) (ClienteCreate.cpf d)
             (ClienteCreate.cnpj d) (ClienteCreate.cep d)
             (ClienteCreate.endereco d) (ClienteCreate.telefone d) agora.

(** The [unique=True] columns of [Cliente]: email, cpf and cnpj.  A NULL
    cnpj collides with nothing. *)
Definition viola_unique (cs : list Cliente.t) (d : ClienteCreate.t) : bool :=
  existsb (fun c => String.eqb (Cliente.email c) (ClienteCreate.email d)) cs
  || existsb (fun c => String.eqb (Cliente.cpf c) (ClienteCreate.cpf d)) cs
  || match ClienteCreate.cnpj d with
     | Some x => existsb (fun c => opt_eqb (Cliente.cnpj c) x) cs
     | None => false
     end.

(** [db.add(novo_cliente); db.commit(); db.refresh(novo_cliente)]: one
    INSERT, rejected as a whole when a unique column collides. *)
Definition db_add_commit_refresh (agora : Z) (d : ClienteCreate.t)
  : Servico Cliente.t :=
  fun db =>
    if viola_unique (clientes db) d then (Raise IntegrityError, db)
    else
      let novo_cliente := Cliente_novo (proximo_id (clientes db)) agora d in
      (Ok novo_cliente, mkBanco (clientes db ++ [novo_cliente])%list (pedidos db)).

(** Value a NOT NULL column gets from an update entry; [None] when the entry
    would store NULL. *)
Definition coluna_nn {A : Type} (novo : option (option A)) (atual : A) : option A :=
  match novo with
  | None => Some atual
  | Some v => v
  end.

(** Value a nullable column gets from an update entry. *)
Definition coluna {A : Type} (novo : option (option A)) (atual : option A) : option A :=
  match novo with
  | None => atual
  | Some v => v
  end.

(** [for key, value in update_data.items(): setattr(cliente, key, value)]
    on a row, given the values of the two NOT NULL columns. *)
Definition atribuir (c : Cliente.t) (n e : string) (u : ClienteUpdate.t) : Cliente.t :=
  Cliente.mk (Cliente.id c) n e
             (coluna (ClienteUpdate.idade u) (Cliente.idade c))
             (Cliente.cpf c) (Cliente.cnpj c) (Cliente.cep c)
             (coluna (ClienteUpdate.endereco u) (Cliente.endereco c))
             (coluna (ClienteUpdate.telefone u) (Cliente.telefone c))
             (Cliente.data_criacao c).

(** The [setattr] loop followed by [db.commit(); db.refresh(cliente)]: one
    UPDATE of the row with the customer's id.  The commit raises when name
    or email would become NULL, or when the email changes to one another row
    holds.  Values are stored as given: the ranges of the column types are
    the engine's and are not modelled. *)
Definition db_setattr_commit_refresh (cliente : Cliente.t) (u : ClienteUpdate.t)
  : Servico Cliente.t :=
  fun db =>
    match coluna_nn (ClienteUpdate.nome u) (Cliente.nome cliente),
          coluna_nn (ClienteUpdate.email u) (Cliente.email cliente) with
    | Some n, Some e =>
        if negb (String.eqb e (Cliente.email cliente))
           && existsb (fun c => String.eqb (Cliente.email c) e) (clientes db)
        then (Raise IntegrityError, db)
        else
          (Ok (atribuir cliente n e u),
           mkBanco (map (fun r => if Z.eqb (Cliente.id r) (Cliente.id cliente)
                                  then atribuir r n e u else r)
                        (clientes db))
                   (pedidos db))
    | _, _ => (Raise IntegrityError, db)
    end.

(** [db.delete(cliente); db.commit()]: DELETE of the row with that id. *)
Definition db_delete_commit (cliente : Cliente.t) : Servico unit :=
  fun db =>
    (Ok tt,
     mkBanco (filter (fun r => negb (Z.eqb (Cliente.id r) (Cliente.id cliente)))
                     (clientes db))
             (pedidos db)).

(** ** Pattern matching of [ilike] *)

(** Strings are byte strings; case is folded on the ASCII letters. *)
Definition lower (c : ascii) : ascii :=
  let n := nat_of_ascii c in
  if (Nat.leb 65 n && Nat.leb n 90)%bool then ascii_of_nat (n + 32) else c.

(** [column.ilike(pattern)]: SQL LIKE with letters compared without case.
    In the pattern [%] matches any run of characters and [_] any single
    character; the call passes no escape character. *)
Fixpoint ilike (p s : string) : bool :=
  match p with
  | EmptyString =>
      match s with
      | EmptyString => true
      | String _ _ => false
      end
  | String c p' =>
      if Ascii.eqb c "%"
      then (fix resto (s : string) : bool :=
              ilike p' s
              || match s with
                 | EmptyString => false
                 | String _ s' => resto s'
                 end) s
      else match s with
           | EmptyString => false
           | String d s' =>
               (Ascii.eqb c "_" || Ascii.eqb (lower c) (lower d)) && ilike p' s'
           end
  end.

(** Python truth value of a string. *)
Definition truthy (s : string) : bool := negb (String.eqb s "").

(** ** [ClienteService]: [services/regras_de_negocio.py] *)

Definition _validar_cpf_unico (cpf : string) : Servico unit :=
  cliente_existente <- query_first (fun c => String.eqb (Cliente.cpf c) cpf) ;;
  match cliente_existente with
  | Some _ => raise (HTTPException HTTP_400_BAD_REQUEST (CpfJaCadastrado cpf))
  | None => ret tt
  end.

Definition _validar_email_unico (email : string) : Servico unit :=
  cliente_existente <- query_first (fun c => String.eqb (Cliente.email c) email) ;;
  match cliente_existente with
  | Some _ => raise (HTTPException HTTP_400_BAD_REQUEST (EmailJaCadastrado email))
  | None => ret tt
  end.

Definition criar_cliente (agora : Z) (cliente_data : ClienteCreate.t)
  : Servico Cliente.t :=
  _validar_cpf_unico (ClienteCreate.cpf cliente_data) ;;
  _validar_email_unico (ClienteCreate.email cliente_data) ;;
  db_add_commit_refresh agora cliente_data.

Definition obter_cliente_por_id (cliente_id : Z) : Servico Cliente.t :=
  cliente <- query_first (fun c => Z.eqb (Cliente.id c) cliente_id) ;;
  match cliente with
  | None => raise (HTTPException HTTP_404_NOT_FOUND (ClienteIdNaoEncontrado cliente_id))
  | Some c => ret c
  end.

Definition obter_cliente_por_cpf (cpf : string) : Servico Cliente.t :=
  cliente <- query_first (fun c => String.eqb (Cliente.cpf c) cpf) ;;
  match cliente with
  | None => raise (HTTPException HTTP_404_NOT_FOUND (ClienteCpfNaoEncontrado cpf))
  | Some c => ret c
  end.

Definition atualizar_cliente (cliente_id : Z) (cliente_data : ClienteUpdate.t)
  : Servico Cliente.t :=
  cliente <- obter_cliente_por_id cliente_id ;;
  (match ClienteUpdate.get_email cliente_data with
   | Some e =>
       if truthy e && negb (String.eqb e (Cliente.email cliente))
       then _validar_email_unico e
       else ret tt
   | None => ret tt
   end) ;;
  db_setattr_commit_refresh cliente cliente_data.

Definition atualizar_email (cliente_id : Z) (novo_email : string)
  : Servico Cliente.t :=
  cliente <- obter_cliente_por_id cliente_id ;;
  (if negb (String.eqb novo_email (Cliente.email cliente))
   then _validar_email_unico novo_email
   else ret tt) ;;
  db_setattr_commit_refresh cliente
    (ClienteUpdate.mk None (Some (Some novo_email)) None None None).

Definition deletar_cliente (cliente_id : Z) : Servico unit :=
  cliente <- obter_cliente_por_id cliente_id ;;
  ps <- rel_pedidos cliente ;;
  if Nat.ltb 0 (List.length ps)
  then raise (HTTPException HTTP_400_BAD_REQUEST (ClienteComPedidos (List.length ps)))
  else db_delete_commit cliente.

Definition listar_pedidos_do_cliente (cliente_id : Z) : Servico (list Pedido.t) :=
  cliente <- obter_cliente_por_id cliente_id ;;
  rel_pedidos cliente.

Definition buscar_por_nome (nome : string) : Servico (list Cliente.t) :=
  query_all (fun c => ilike ("%" ++ nome ++ "%") (Cliente.nome c)).

Definition contar_clientes : Servico nat := query_count.

(** [db.query(Cliente).offset(skip).limit(limit).all()], for [skip] and
    [limit] that are not negative (what a negative value does is the
    engine's business). *)
Definition listar_clientes (skip limit : nat) : Servico (list Cliente.t) :=
  fun db => (Ok (firstn limit (skipn skip (clientes db))), db).

(** [str.isdigit] on the ASCII characters. *)
Definition isdigit (c : ascii) : bool :=
  let n := nat_of_ascii c in (Nat.leb 48 n && Nat.leb n 57)%bool.

(** [''.join(filter(pred, s))] *)
Fixpoint join_filter (pred : ascii -> bool) (s : string) : string :=
  match s with
  | EmptyString => EmptyString
  | String c s' =>
      if pred c then String c (join_filter pred s') else join_filter pred s'
  end.

Definition _validar_cpf_formato (cpf : string) : bool :=
  let cpf_limpo := join_filter isdigit cpf in
  Nat.eqb (String.length cpf_limpo) 11.

(** ** Fields and construction of the update input *)

(** The field names of the customer schemas. *)
Inductive Campo : Type :=
| CampoNome
| CampoEmail
| CampoIdade
| CampoCpf
| CampoCnpj
| CampoCep
| CampoEndereco
| CampoTelefone.

(** The fields [ClienteBase] declares (the customer field set), in order. *)
Definition ClienteBase_model_fields : list Campo :=
  [CampoNome; CampoEmail; CampoIdade; CampoCpf; CampoCnpj; CampoCep;
   CampoEndereco; CampoTelefone].

(** The fields [ClienteUpdate] declares, in order. *)
Definition ClienteUpdate_model_fields : list Campo :=
  [CampoNome; CampoEmail; CampoIdade; CampoTelefone; CampoEndereco].

(** [cliente_data.model_fields_set]: the fields that were set, which are the
    keys of [model_dump(exclude_unset=True)]. *)
Definition definido {A : Type} (x : option A) : bool :=
  match x with
  | Some _ => true
  | None => false
  end.

Definition ClienteUpdate_model_fields_set (u : ClienteUpdate.t) : list Campo :=
  ((if definido (ClienteUpdate.nome u) then [CampoNome] else [])
   ++ (if definido (ClienteUpdate.email u) then [CampoEmail] else [])
   ++ (if definido (ClienteUpdate.idade u) then [CampoIdade] else [])
   ++ (if definido (ClienteUpdate.telefone u) then [CampoTelefone] else [])
   ++ (if definido (ClienteUpdate.endereco u) then [CampoEndereco] else []))%list.

(** The update input with the email entry taken out. *)
Definition sem_email (u : ClienteUpdate.t) : ClienteUpdate.t :=
  ClienteUpdate.mk (ClienteUpdate.nome u) None (ClienteUpdate.idade u)
                   (ClienteUpdate.telefone u) (ClienteUpdate.endereco u).

Section Validacao.

(** The validation pydantic runs on an [EmailStr] value: [None] when the
    value is rejected, the validated (normalised) address when it is
    accepted.  It belongs to the library, not to this program, and is a
    parameter of what follows. *)
Variable EmailStr : string -> option string.

(** [ClienteUpdate(nome=..., email=..., idade=..., telefone=..., endereco=...)]:
    the only field with a validator is the email, whose value, when there is
    one, is replaced by its validated form; a rejected email rejects the
    whole input. *)
Definition ClienteUpdate_init
           (nome email : option (option string)) (idade : option (option Z))
           (telefone endereco : option (option string))
  : option ClienteUpdate.t :=
  match email with
  | Some (Some valor) =>
      match EmailStr valor with
      | Some e => Some (ClienteUpdate.mk nome (Some (Some e)) idade telefone endereco)
      | None => None
      end
  | _ => Some (ClienteUpdate.mk nome email idade telefone endereco)
  end.

(** An update input that the constructor can build. *)
Definition ClienteUpdate_valido (u : ClienteUpdate.t) : Prop :=
  exists nome email idade telefone endereco,
    ClienteUpdate_init nome email idade telefone endereco = Some u.

End Validacao.

(** ** Running examples *)

Definition maria : ClienteCreate.t :=
  ClienteCreate.mk "Maria Silva" "maria@example.com" (Some 30) "12345678901"
                   (Some "11222333000181") None None None.

Definition joao : ClienteCreate.t :=
  ClienteCreate.mk "Joao Souza" "joao@example.com" None "98765432100"
                   None (Some "01001000") None (Some "11999990000").

(** Store after creating Maria, then Joao, from the empty store. *)
Definition banco_dois : Banco :=
  snd (criar_cliente 1700000100 joao (snd (criar_cliente 1700000000 maria banco_vazio))).

Definition ana : ClienteCreate.t :=
  ClienteCreate.mk "Ana Lima" "ana@example.com" (Some 41) "11111111111"
                   None None (Some "Rua das Flores, 10") None.

(** A new customer with a fresh cpf and a fresh email, but the cnpj Maria
    already holds. *)
Definition ana_cnpj_de_maria : ClienteCreate.t :=
  ClienteCreate.mk "Ana Lima" "ana@example.com" (Some 41) "11111111111"
                   (Some "11222333000181") None None None.

(** Maria's cpf with a new email, and a new cpf with Maria's email. *)
Definition cpf_de_maria : ClienteCreate.t :=
  ClienteCreate.mk "Mario Silva" "mario@example.com" None "12345678901"
                   None None None None.

Definition email_de_maria : ClienteCreate.t :=
  ClienteCreate.mk "Maria Souza" "maria@example.com" None "22222222222"
                   None None None None.

(** Maria's cpf together with Joao's email. *)
Definition cpf_e_email_usados : ClienteCreate.t :=
  ClienteCreate.mk "Mario Souza" "joao@example.com" None "12345678901"
                   None None None None.

(** Orders of a customer, as the relationship [cliente.pedidos] loads them. *)
Definition pedidos_de (cliente_id : Z) (db : Banco) : list Pedido.t :=
  filter (fun p => Z.eqb (Pedido.cliente_id p) cliente_id) (pedidos db).

(** The two customers, with one pending order placed by Maria. *)
Definition banco_com_pedido : Banco :=
  mkBanco (clientes banco_dois) [Pedido.mk 1 1700000300 "pendente" 1 None].

(** What a partial update promises for one field: the new value when the
    entry is present, the value before the update when it is absent. *)
Definition campo_atualizado {A : Type}
  (novo : option (option A)) (antes depois : option A) : Prop :=
  match novo with
  | Some v => depois = v
  | None => depois = antes
  end.

(** The partial input that sets the email and nothing else. *)
Definition so_email (e : string) : ClienteUpdate.t :=
  ClienteUpdate.mk None (Some (Some e)) None None None.

(** The store once Maria's email has been blanked through the email route. *)
Definition banco_email_vazio : Banco := snd (atualizar_email 1 "" banco_dois).

(** Own email together with a null name. *)
Definition email_proprio_nome_nulo : ClienteUpdate.t :=
  ClienteUpdate.mk (Some None) (Some (Some "maria@example.com")) None None None.

(** The store after the UPDATE of customer [c] with entries [u]. *)
Definition banco_atualizado (db : Banco) (c : Cliente.t) (n e : string)
           (u : ClienteUpdate.t) : Banco :=
  mkBanco (map (fun r => if Z.eqb (Cliente.id r) (Cliente.id c)
                         then atribuir r n e u else r) (clientes db))
          (pedidos db).

(** Joao's row, and an update of his age, phone (set to null) and address. *)
Definition linha_joao : Cliente.t := Cliente_novo 2 1700000100 joao.

Definition linha_maria : Cliente.t := Cliente_novo 1 1700000000 maria.

Definition atualizacao_joao : ClienteUpdate.t :=
  ClienteUpdate.mk None None (Some (Some 52)) (Some None)
                   (Some (Some "Av. Brasil, 100")).

(** The chosen subset of the five [ClienteUpdate] fields, in order. *)
Definition campos_de (sn se si st sen : bool) : list Campo :=
  ((if sn then [CampoNome] else [])
   ++ (if se then [CampoEmail] else [])
   ++ (if si then [CampoIdade] else [])
   ++ (if st then [CampoTelefone] else [])
   ++ (if sen then [CampoEndereco] else []))%list.

(** The update input that supplies the chosen subset, with fixed values
    for name, age, phone and address and the given email. *)
Definition atualizacao_de (sn se si st sen : bool) (e : string) : ClienteUpdate.t :=
  ClienteUpdate.mk (if sn then Some (Some "Nome Atualizado") else None)
                   (if se then Some (Some e) else None)
                   (if si then Some (Some 30) else None)
                   (if st then Some (Some "11900000000") else None)
                   (if sen then Some (Some "Rua Nova, 1") else None).

(** A customer with only the email replaced. *)
Definition com_email (c : Cliente.t) (e : string) : Cliente.t :=
  Cliente.mk (Cliente.id c) (Cliente.nome c) e (Cliente.idade c) (Cliente.cpf c)
             (Cliente.cnpj c) (Cliente.cep c) (Cliente.endereco c)
             (Cliente.telefone c) (Cliente.data_criacao c).

(** ** Substring search, as documented *)

(** [q] is a prefix of [s], letters compared without case. *)
Fixpoint prefixo_ci (q s : string) : bool :=
  match q with
  | EmptyString => true
  | String c q' =>
      match s with
      | EmptyString => false
      | String d s' => Ascii.eqb (lower c) (lower d) && prefixo_ci q' s'
      end
  end.

(** [s] contains [q] as a substring, letters compared without case: what the
    route documents for the name search. *)
Fixpoint contem_ci (q s : string) : bool :=
  prefixo_ci q s
  || match s with
     | EmptyString => false
     | String _ s' => contem_ci q s'
     end.


(** ** Reachable stores *)

(** Stores reached from the empty one by Create, Update, UpdateEmail and
    Delete calls, whatever their arguments and whether they succeed or
    raise. *)
Inductive alcancavel : Banco -> Prop :=
| alc_vazio : alcancavel banco_vazio
| alc_criar (db : Banco) (agora : Z) (d : ClienteCreate.t) :
    alcancavel db -> alcancavel (snd (criar_cliente agora d db))
| alc_atualizar (db : Banco) (cid : Z) (u : ClienteUpdate.t) :
    alcancavel db -> alcancavel (snd (atualizar_cliente cid u db))
| alc_email (db : Banco) (cid : Z) (e : string) :
    alcancavel db -> alcancavel (snd (atualizar_email cid e db))
| alc_deletar (db : Banco) (cid : Z) :
    alcancavel db -> alcancavel (snd (deletar_cliente cid db)).

(** The key constraints of table [clientes]: primary key, unique email,
    unique cpf. *)
Definition integro (db : Banco) : Prop :=
  NoDup (map Cliente.id (clientes db))
  /\ NoDup (map Cliente.email (clientes db))
  /\ NoDup (map Cliente.cpf (clientes db)).

(** ** Sequences of calls *)

(** One call of a mutating service method. *)
Inductive Chamada : Type :=
| ChCriar (agora : Z) (cliente_data : ClienteCreate.t)
| ChAtualizar (cliente_id : Z) (cliente_data : ClienteUpdate.t)
| ChEmail (cliente_id : Z) (novo_email : string)
| ChDeletar (cliente_id : Z).

Definition chamar (ch : Chamada) : Servico unit :=
  match ch with
  | ChCriar agora d => criar_cliente agora d ;; ret tt
  | ChAtualizar cid u => atualizar_cliente cid u ;; ret tt
  | ChEmail cid e => atualizar_email cid e ;; ret tt
  | ChDeletar cid => deletar_cliente cid
  end.

(** Runs the calls in order, each on the store the previous one left
    (a call that raises leaves it as it was), and counts the Creates and
    the Deletes that succeeded: (created, deleted, final store). *)
Fixpoint executar (chs : list Chamada) (db : Banco) : nat * nat * Banco :=
  match chs with
  | [] => (0%nat, 0%nat, db)
  | ch :: chs' =>
      let (r, db') := chamar ch db in
      let '(criados, deletados, final) := executar chs' db' in
      match r, ch with
      | Ok _, ChCriar _ _ => (S criados, deletados, final)
      | Ok _, ChDeletar _ => (criados, S deletados, final)
      | _, _ => (criados, deletados, final)
      end
  end.

(** All characters are ASCII. *)
Fixpoint so_ascii (s : string) : bool :=
  match s with
  | EmptyString => true
  | String c s' => Nat.ltb (nat_of_ascii c) 128 && so_ascii s'
  end.

(** The cnpj values present in the table (NULLs left out). *)
Definition cnpjs (cs : list Cliente.t) : list string :=
  flat_map (fun c => match Cliente.cnpj c with
                     | Some x => [x]
                     | None => []
                     end) cs.

(** All four key constraints of [clientes]: the three of [integro] and the
    unique cnpj, which binds only the rows where it is not NULL. *)
Definition integro_total (db : Banco) : Prop :=
  integro db /\ NoDup (cnpjs (clientes db)).

(** Joao's cpf and email in a new Create input, with no cnpj. *)
Definition cpf_e_email_de_joao : ClienteCreate.t :=
  ClienteCreate.mk "Joao Souza Filho" "joao@example.com" None "98765432100"
                   None None None None.

(** Every character of the string satisfies [pred]. *)
Fixpoint todos (pred : ascii -> bool) (s : string) : bool :=
  match s with
  | EmptyString => true
  | String c s' => pred c && todos pred s'
  end.



(** * Properties *)

(** ** Lists, lookups and fresh ids *)

Lemma existsb_col {A : Type} (f : A -> string) (x : string) (l : list A) :
  existsb (fun c => String.eqb (f c) x) l = true <-> In x (map f l).
Proof.
  induction l as [|a l IH]; simpl.
  - split; [discriminate | tauto].
  - rewrite orb_true_iff, IH, String.eqb_eq. tauto.
Qed.

Lemma existsb_col_false {A : Type} (f : A -> string) (x : string) (l : list A) :
  existsb (fun c => String.eqb (f c) x) l = false <-> ~ In x (map f l).
Proof.
  rewrite <- existsb_col. destruct (existsb _ l); split; intro H.
  - discriminate.
  - exfalso; apply H; reflexivity.
  - intro H0; discriminate.
  - reflexivity.
Qed.

Lemma find_col_none {A : Type} (f : A -> string) (x : string) (l : list A) :
  ~ In x (map f l) -> find (fun c => String.eqb (f c) x) l = None.
Proof.
  induction l as [|a l IH]; simpl; intro H; [reflexivity|].
  destruct (String.eqb_spec (f a) x) as [E|E].
  - exfalso; apply H; left; exact E.
  - apply IH; intro H0; apply H; right; exact H0.
Qed.

Lemma find_col_some {A : Type} (f : A -> string) (x : string) (l : list A) :
  In x (map f l) -> exists c, find (fun c => String.eqb (f c) x) l = Some c.
Proof.
  induction l as [|a l IH]; simpl; intro H; [contradiction|].
  destruct (String.eqb_spec (f a) x) as [E|E].
  - exists a; reflexivity.
  - destruct H as [H|H]; [contradiction | exact (IH H)].
Qed.

Lemma find_id_none (cid : Z) (l : list Cliente.t) :
  ~ In cid (map Cliente.id l) ->
  find (fun c => Z.eqb (Cliente.id c) cid) l = None.
Proof.
  induction l as [|a l IH]; simpl; intro H; [reflexivity|].
  destruct (Z.eqb_spec (Cliente.id a) cid) as [E|E].
  - exfalso; apply H; left; exact E.
  - apply IH; intro H0; apply H; right; exact H0.
Qed.

Lemma find_id_some (cid : Z) (l : list Cliente.t) (c : Cliente.t) :
  find (fun c => Z.eqb (Cliente.id c) cid) l = Some c ->
  In c l /\ Cliente.id c = cid.
Proof.
  intro H. destruct (find_some _ _ H) as [Hin Heq].
  split; [exact Hin | now apply Z.eqb_eq].
Qed.

Lemma find_id_in (cid : Z) (l : list Cliente.t) :
  In cid (map Cliente.id l) ->
  exists c, find (fun c => Z.eqb (Cliente.id c) cid) l = Some c.
Proof.
  induction l as [|a l IH]; simpl; intro H; [contradiction|].
  destruct (Z.eqb_spec (Cliente.id a) cid) as [E|E].
  - exists a; reflexivity.
  - destruct H as [H|H]; [contradiction | exact (IH H)].
Qed.

Lemma find_snoc {A : Type} (p : A -> bool) (l : list A) (x : A) :
  find p l = None -> p x = true -> find p (l ++ [x]) = Some x.
Proof.
  induction l as [|a l IH]; simpl; intros Hn Hx.
  - now rewrite Hx.
  - destruct (p a); [discriminate | now apply IH].
Qed.

Lemma ids_le_max (l : list Cliente.t) (c : Cliente.t) :
  In c l -> Cliente.id c <= fold_right Z.max 0 (map Cliente.id l).
Proof.
  induction l as [|a l IH]; simpl; intro H; [contradiction|].
  destruct H as [->|H]; [lia|]. specialize (IH H). lia.
Qed.

(** The id given to a new row is held by no row of the table. *)
Lemma proximo_id_novo (l : list Cliente.t) :
  ~ In (proximo_id l) (map Cliente.id l).
Proof.
  intro H. apply in_map_iff in H. destruct H as [c [E Hc]].
  apply ids_le_max in Hc. unfold proximo_id in E. lia.
Qed.

(** ** The two validators *)

Lemma validar_cpf_livre (cpf : string) (db : Banco) :
  ~ In cpf (map Cliente.cpf (clientes db)) ->
  _validar_cpf_unico cpf db = (Ok tt, db).
Proof.
  intro H. unfold _validar_cpf_unico, bind, query_first.
  now rewrite (find_col_none _ _ _ H).
Qed.

Lemma validar_cpf_usado (cpf : string) (db : Banco) :
  In cpf (map Cliente.cpf (clientes db)) ->
  _validar_cpf_unico cpf db
  = (Raise (HTTPException HTTP_400_BAD_REQUEST (CpfJaCadastrado cpf)), db).
Proof.
  intro H. unfold _validar_cpf_unico, bind, query_first.
  destruct (find_col_some _ _ _ H) as [c ->]. reflexivity.
Qed.

Lemma validar_email_livre (email : string) (db : Banco) :
  ~ In email (map Cliente.email (clientes db)) ->
  _validar_email_unico email db = (Ok tt, db).
Proof.
  intro H. unfold _validar_email_unico, bind, query_first.
  now rewrite (find_col_none _ _ _ H).
Qed.

Lemma validar_email_usado (email : string) (db : Banco) :
  In email (map Cliente.email (clientes db)) ->
  _validar_email_unico email db
  = (Raise (HTTPException HTTP_400_BAD_REQUEST (EmailJaCadastrado email)), db).
Proof.
  intro H. unfold _validar_email_unico, bind, query_first.
  destruct (find_col_some _ _ _ H) as [c ->]. reflexivity.
Qed.

(** ** Lookup by id *)

Lemma obter_por_id_ausente (cid : Z) (db : Banco) :
  ~ In cid (map Cliente.id (clientes db)) ->
  obter_cliente_por_id cid db
  = (Raise (HTTPException HTTP_404_NOT_FOUND (ClienteIdNaoEncontrado cid)), db).
Proof.
  intro H. unfold obter_cliente_por_id, bind, query_first.
  now rewrite (find_id_none _ _ H).
Qed.

Lemma obter_por_id_ok (cid : Z) (db : Banco) (c : Cliente.t) :
  obter_cliente_por_id cid db = (Ok c, db) <->
  find (fun r => Z.eqb (Cliente.id r) cid) (clientes db) = Some c.
Proof.
  unfold obter_cliente_por_id, bind, query_first.
  destruct (find _ (clientes db)) as [r|]; unfold ret, raise; split; intro H;
    try discriminate; congruence.
Qed.

Lemma obter_por_id_presente (cid : Z) (db : Banco) :
  In cid (map Cliente.id (clientes db)) ->
  exists c, obter_cliente_por_id cid db = (Ok c, db)
            /\ In c (clientes db) /\ Cliente.id c = cid.
Proof.
  intro H. destruct (find_id_in _ _ H) as [c Hc].
  exists c. split; [now apply obter_por_id_ok | now apply find_id_some].
Qed.

(** ** Create *)

Lemma existsb_cnpj (x : string) (l : list Cliente.t) :
  existsb (fun c => opt_eqb (Cliente.cnpj c) x) l = true
  <-> In (Some x) (map Cliente.cnpj l).
Proof.
  induction l as [|a l IH]; simpl.
  - split; [discriminate | tauto].
  - rewrite orb_true_iff, IH. unfold opt_eqb.
    destruct (Cliente.cnpj a) as [y|].
    + rewrite String.eqb_eq. split; intros [H|H]; auto; left; congruence.
    + split; intros [H|H]; auto; discriminate.
Qed.

(** The store accepts the INSERT exactly when the three unique columns are
    free. *)
Lemma viola_unique_false (l : list Cliente.t) (d : ClienteCreate.t) :
  viola_unique l d = false <->
  ~ In (ClienteCreate.email d) (map Cliente.email l)
  /\ ~ In (ClienteCreate.cpf d) (map Cliente.cpf l)
  /\ (forall x, ClienteCreate.cnpj d = Some x -> ~ In (Some x) (map Cliente.cnpj l)).
Proof.
  unfold viola_unique. rewrite !orb_false_iff, !existsb_col_false.
  destruct (ClienteCreate.cnpj d) as [x|].
  - split.
    + intros [[He Hc] Hx]. repeat split; trivial.
      intros y Hy; injection Hy as <-. rewrite <- existsb_cnpj, Hx. discriminate.
    + intros [He [Hc Hx]]. repeat split; trivial.
      specialize (Hx x eq_refl). rewrite <- existsb_cnpj in Hx.
      destruct (existsb _ l); [exfalso; apply Hx; reflexivity | reflexivity].
  - split.
    + intros [[He Hc] _]. repeat split; trivial. discriminate.
    + intros [He [Hc _]]. repeat split; trivial.
Qed.

Lemma criar_cliente_cpf_usado (agora : Z) (d : ClienteCreate.t) (db : Banco) :
  In (ClienteCreate.cpf d) (map Cliente.cpf (clientes db)) ->
  criar_cliente agora d db
  = (Raise (HTTPException HTTP_400_BAD_REQUEST
                          (CpfJaCadastrado (ClienteCreate.cpf d))), db).
Proof.
  intro H. unfold criar_cliente, bind.
  now rewrite (validar_cpf_usado _ _ H).
Qed.

Lemma criar_cliente_email_usado (agora : Z) (d : ClienteCreate.t) (db : Banco) :
  ~ In (ClienteCreate.cpf d) (map Cliente.cpf (clientes db)) ->
  In (ClienteCreate.email d) (map Cliente.email (clientes db)) ->
  criar_cliente agora d db
  = (Raise (HTTPException HTTP_400_BAD_REQUEST
                          (EmailJaCadastrado (ClienteCreate.email d))), db).
Proof.
  intros Hc He. unfold criar_cliente, bind.
  now rewrite (validar_cpf_livre _ _ Hc), (validar_email_usado _ _ He).
Qed.

(** Once both validators pass, the outcome is the store's verdict on the
    INSERT. *)
Lemma criar_cliente_validado (agora : Z) (d : ClienteCreate.t) (db : Banco) :
  ~ In (ClienteCreate.cpf d) (map Cliente.cpf (clientes db)) ->
  ~ In (ClienteCreate.email d) (map Cliente.email (clientes db)) ->
  criar_cliente agora d db = db_add_commit_refresh agora d db.
Proof.
  intros Hc He. unfold criar_cliente, bind.
  now rewrite (validar_cpf_livre _ _ Hc), (validar_email_livre _ _ He).
Qed.

(** C1 (as amended).  A Create input whose cpf and email are held by no
    stored customer, and whose cnpj is null or held by no stored customer,
    succeeds: the returned record has an id no stored customer has, carries
    the creation timestamp, is appended to the store, and [GetByID] on its id
    returns that same record. *)
Theorem criar_cliente_sucesso (agora : Z) (d : ClienteCreate.t) (db : Banco) :
  ~ In (ClienteCreate.cpf d) (map Cliente.cpf (clientes db)) ->
  ~ In (ClienteCreate.email d) (map Cliente.email (clientes db)) ->
  (forall x, ClienteCreate.cnpj d = Some x ->
             ~ In (Some x) (map Cliente.cnpj (clientes db))) ->
  let c := Cliente_novo (proximo_id (clientes db)) agora d in
  let db' := mkBanco (clientes db ++ [c]) (pedidos db) in
  criar_cliente agora d db = (Ok c, db')
  /\ ~ In (Cliente.id c) (map Cliente.id (clientes db))
  /\ Cliente.data_criacao c = agora
  /\ obter_cliente_por_id (Cliente.id c) db' = (Ok c, db').
Proof.
  intros Hc He Hx c db'.
  assert (Hv : viola_unique (clientes db) d = false)
    by (apply viola_unique_false; auto).
  split; [|split; [|split]].
  - rewrite criar_cliente_validado by assumption.
    unfold db_add_commit_refresh. now rewrite Hv.
  - apply proximo_id_novo.
  - reflexivity.
  - apply obter_por_id_ok. simpl. apply find_snoc.
    + apply find_id_none, proximo_id_novo.
    + apply Z.eqb_refl.
Qed.

Lemma criar_cliente_sucesso_witness :
  criar_cliente 1700000200 ana banco_dois
  = (Ok (Cliente_novo 3 1700000200 ana),
     mkBanco (clientes banco_dois ++ [Cliente_novo 3 1700000200 ana])
             (pedidos banco_dois))
  /\ ~ In 3 (map Cliente.id (clientes banco_dois))
  /\ Cliente.data_criacao (Cliente_novo 3 1700000200 ana) = 1700000200
  /\ obter_cliente_por_id 3
       (mkBanco (clientes banco_dois ++ [Cliente_novo 3 1700000200 ana])
                (pedidos banco_dois))
     = (Ok (Cliente_novo 3 1700000200 ana),
        mkBanco (clientes banco_dois ++ [Cliente_novo 3 1700000200 ana])
                (pedidos banco_dois)).
Proof.
  apply (criar_cliente_sucesso 1700000200 ana banco_dois).
  - apply existsb_col_false. vm_compute. reflexivity.
  - apply existsb_col_false. vm_compute. reflexivity.
  - intros x Hx. discriminate Hx.
Defined.

(** C1, counterexample.  With Maria and Joao stored, a Create whose cpf and
    email are both unused but whose cnpj equals Maria's does not succeed: the
    commit raises [IntegrityError] and nothing is stored. *)
Lemma criar_cliente_cnpj_repetido :
  ~ In (ClienteCreate.cpf ana_cnpj_de_maria) (map Cliente.cpf (clientes banco_dois))
  /\ ~ In (ClienteCreate.email ana_cnpj_de_maria)
          (map Cliente.email (clientes banco_dois))
  /\ criar_cliente 1700000200 ana_cnpj_de_maria banco_dois
     = (Raise IntegrityError, banco_dois).
Proof.
  split; [|split].
  - apply existsb_col_false. vm_compute. reflexivity.
  - apply existsb_col_false. vm_compute. reflexivity.
  - vm_compute. reflexivity.
Qed.

(** C2.  When the input's cpf is already stored, Create fails with the
    duplicate-cpf error (HTTP 400); when the cpf is fresh but the email is
    already stored, it fails with the duplicate-email error (HTTP 400); in
    both cases the store is left as it was. *)
Theorem criar_cliente_duplicado (agora : Z) (d : ClienteCreate.t) (db : Banco) :
  (In (ClienteCreate.cpf d) (map Cliente.cpf (clientes db)) ->
   criar_cliente agora d db
   = (Raise (HTTPException 400 (CpfJaCadastrado (ClienteCreate.cpf d))), db))
  /\ (~ In (ClienteCreate.cpf d) (map Cliente.cpf (clientes db)) ->
      In (ClienteCreate.email d) (map Cliente.email (clientes db)) ->
      criar_cliente agora d db
      = (Raise (HTTPException 400 (EmailJaCadastrado (ClienteCreate.email d))), db)).
Proof.
  split.
  - apply criar_cliente_cpf_usado.
  - apply criar_cliente_email_usado.
Qed.

Lemma criar_cliente_duplicado_witness :
  criar_cliente 1700000200 cpf_de_maria banco_dois
  = (Raise (HTTPException 400 (CpfJaCadastrado "12345678901")), banco_dois)
  /\ criar_cliente 1700000200 email_de_maria banco_dois
     = (Raise (HTTPException 400 (EmailJaCadastrado "maria@example.com")), banco_dois).
Proof.
  split.
  - apply (proj1 (criar_cliente_duplicado 1700000200 cpf_de_maria banco_dois)).
    apply existsb_col. vm_compute. reflexivity.
  - apply (proj2 (criar_cliente_duplicado 1700000200 email_de_maria banco_dois)).
    + apply existsb_col_false. vm_compute. reflexivity.
    + apply existsb_col. vm_compute. reflexivity.
Defined.

(** C10.  The cpf is validated before the email: when both the cpf and the
    email of the input are already stored, Create fails with the
    duplicate-cpf error and the email check is not reached. *)
Theorem criar_cliente_cpf_antes_do_email
  (agora : Z) (d : ClienteCreate.t) (db : Banco) :
  In (ClienteCreate.cpf d) (map Cliente.cpf (clientes db)) ->
  In (ClienteCreate.email d) (map Cliente.email (clientes db)) ->
  criar_cliente agora d db
  = (Raise (HTTPException 400 (CpfJaCadastrado (ClienteCreate.cpf d))), db).
Proof.
  intros Hc _. now apply criar_cliente_cpf_usado.
Qed.

Lemma criar_cliente_cpf_antes_do_email_witness :
  criar_cliente 1700000200 cpf_e_email_usados banco_dois
  = (Raise (HTTPException 400 (CpfJaCadastrado "12345678901")), banco_dois).
Proof.
  apply (criar_cliente_cpf_antes_do_email 1700000200 cpf_e_email_usados banco_dois).
  - apply existsb_col. vm_compute. reflexivity.
  - apply existsb_col. vm_compute. reflexivity.
Defined.

(** ** Delete *)

Lemma rel_pedidos_eq (c : Cliente.t) (db : Banco) :
  rel_pedidos c db = (Ok (pedidos_de (Cliente.id c) db), db).
Proof. reflexivity. Qed.

Lemma sem_id_apos_filtro (cid : Z) (l : list Cliente.t) :
  ~ In cid (map Cliente.id
              (filter (fun r => negb (Z.eqb (Cliente.id r) cid)) l)).
Proof.
  intro H. apply in_map_iff in H. destruct H as [r [E Hr]].
  apply filter_In in Hr. destruct Hr as [_ Hr].
  rewrite <- E, Z.eqb_refl in Hr. discriminate.
Qed.

Lemma filtro_sem_efeito (cid : Z) (l : list Cliente.t) :
  ~ In cid (map Cliente.id l) ->
  filter (fun r => negb (Z.eqb (Cliente.id r) cid)) l = l.
Proof.
  induction l as [|a l IH]; simpl; intro H; [reflexivity|].
  destruct (Z.eqb_spec (Cliente.id a) cid) as [E|E]; simpl.
  - exfalso; apply H; left; exact E.
  - f_equal. apply IH. intro H0; apply H; right; exact H0.
Qed.

(** Under the primary key, the DELETE takes one row out. *)
Lemma filtro_remove_um (cid : Z) (l : list Cliente.t) :
  NoDup (map Cliente.id l) -> In cid (map Cliente.id l) ->
  S (List.length (filter (fun r => negb (Z.eqb (Cliente.id r) cid)) l))
  = List.length l.
Proof.
  induction l as [|a l IH]; simpl; intros Hnd Hin; [contradiction|].
  inversion Hnd as [|x xs Hna Hnd']; subst.
  destruct (Z.eqb_spec (Cliente.id a) cid) as [E|E]; simpl.
  - subst cid. now rewrite filtro_sem_efeito.
  - f_equal. apply IH; [assumption|]. destruct Hin as [Hin|Hin]; [contradiction | assumption].
Qed.

(** C3.  Delete on an id no customer has fails with the not-found error
    (HTTP 404).  Delete on an existing customer with at least one order fails
    with HTTP 400 carrying the number of orders, and the store is unchanged.
    Delete on an existing customer with no order removes the row with that
    id and no other (one row fewer under the primary key), and a following
    [GetByID] on the id fails with not-found. *)
Theorem deletar_cliente_casos (cid : Z) (db : Banco) :
  (~ In cid (map Cliente.id (clientes db)) ->
   deletar_cliente cid db
   = (Raise (HTTPException 404 (ClienteIdNaoEncontrado cid)), db))
  /\ (In cid (map Cliente.id (clientes db)) ->
      pedidos_de cid db <> [] ->
      deletar_cliente cid db
      = (Raise (HTTPException 400
                  (ClienteComPedidos (List.length (pedidos_de cid db)))), db))
  /\ (In cid (map Cliente.id (clientes db)) ->
      pedidos_de cid db = [] ->
      let db' :=
        mkBanco (filter (fun r => negb (Z.eqb (Cliente.id r) cid)) (clientes db))
                (pedidos db) in
      deletar_cliente cid db = (Ok tt, db')
      /\ (forall r, In r (clientes db') <->
                    In r (clientes db) /\ Cliente.id r <> cid)
      /\ (NoDup (map Cliente.id (clientes db)) ->
          S (List.length (clientes db')) = List.length (clientes db))
      /\ obter_cliente_por_id cid db'
         = (Raise (HTTPException 404 (ClienteIdNaoEncontrado cid)), db')).
Proof.
  split; [|split].
  - intro H. unfold deletar_cliente, bind.
    now rewrite (obter_por_id_ausente _ _ H).
  - intros H Hp. destruct (obter_por_id_presente _ _ H) as [c [Hc [_ Hid]]].
    unfold deletar_cliente, bind. rewrite Hc, rel_pedidos_eq, Hid.
    destruct (pedidos_de cid db); [congruence | reflexivity].
  - intros H Hp db'. destruct (obter_por_id_presente _ _ H) as [c [Hc [_ Hid]]].
    split; [|split; [|split]].
    + unfold deletar_cliente, bind. rewrite Hc, rel_pedidos_eq, Hid, Hp. simpl.
      unfold db_delete_commit. now rewrite Hid.
    + intro r. simpl. rewrite filter_In, negb_true_iff, Z.eqb_neq. tauto.
    + intro Hnd. simpl. now apply filtro_remove_um.
    + apply obter_por_id_ausente. simpl. apply sem_id_apos_filtro.
Qed.

Lemma deletar_cliente_casos_witness :
  deletar_cliente 7 banco_com_pedido
  = (Raise (HTTPException 404 (ClienteIdNaoEncontrado 7)), banco_com_pedido)
  /\ deletar_cliente 1 banco_com_pedido
     = (Raise (HTTPException 400 (ClienteComPedidos 1)), banco_com_pedido)
  /\ (deletar_cliente 2 banco_com_pedido
      = (Ok tt, mkBanco (filter (fun r => negb (Z.eqb (Cliente.id r) 2))
                                (clientes banco_com_pedido))
                        (pedidos banco_com_pedido))
      /\ obter_cliente_por_id 2
           (mkBanco (filter (fun r => negb (Z.eqb (Cliente.id r) 2))
                            (clientes banco_com_pedido))
                    (pedidos banco_com_pedido))
         = (Raise (HTTPException 404 (ClienteIdNaoEncontrado 2)),
            mkBanco (filter (fun r => negb (Z.eqb (Cliente.id r) 2))
                            (clientes banco_com_pedido))
                    (pedidos banco_com_pedido))).
Proof.
  split; [|split].
  - apply (proj1 (deletar_cliente_casos 7 banco_com_pedido)).
    vm_compute. intros [H|[H|[]]]; discriminate H.
  - apply (proj1 (proj2 (deletar_cliente_casos 1 banco_com_pedido))).
    + vm_compute. left; reflexivity.
    + vm_compute. discriminate.
  - assert (Hin : In 2 (map Cliente.id (clientes banco_com_pedido)))
      by (vm_compute; right; left; reflexivity).
    assert (Hp : pedidos_de 2 banco_com_pedido = []) by reflexivity.
    destruct (proj2 (proj2 (deletar_cliente_casos 2 banco_com_pedido)) Hin Hp)
      as [H1 [_ [_ H4]]].
    split; [exact H1 | exact H4].
Defined.

(** ** Update *)

Lemma id_atribuir (r : Cliente.t) (n e : string) (u : ClienteUpdate.t) :
  Cliente.id (atribuir r n e u) = Cliente.id r.
Proof. reflexivity. Qed.

(** The row found by id after the UPDATE is the updated image of the row
    found before. *)
Lemma find_apos_update (cid : Z) (g : Cliente.t -> Cliente.t)
      (l : list Cliente.t) (c : Cliente.t) :
  (forall r, Cliente.id (g r) = Cliente.id r) ->
  find (fun r => Z.eqb (Cliente.id r) cid) l = Some c ->
  find (fun r => Z.eqb (Cliente.id r) cid)
       (map (fun r => if Z.eqb (Cliente.id r) cid then g r else r) l)
  = Some (g c).
Proof.
  intros Hg. induction l as [|a l IH]; simpl; intro H; [discriminate|].
  destruct (Z.eqb_spec (Cliente.id a) cid) as [E|E].
  - injection H as <-. rewrite Hg. destruct (Z.eqb_spec (Cliente.id a) cid); congruence.
  - destruct (Z.eqb_spec (Cliente.id a) cid); [contradiction | now apply IH].
Qed.

Lemma outros_apos_update (cid : Z) (g : Cliente.t -> Cliente.t)
      (l : list Cliente.t) (r : Cliente.t) :
  In r l -> Cliente.id r <> cid ->
  In r (map (fun r => if Z.eqb (Cliente.id r) cid then g r else r) l).
Proof.
  intros Hin Hne. apply in_map_iff. exists r. split; [|exact Hin].
  destruct (Z.eqb_spec (Cliente.id r) cid); [contradiction | reflexivity].
Qed.

(** Shape of every successful Update. *)
Lemma atualizar_cliente_inv (cid : Z) (u : ClienteUpdate.t) (db db' : Banco)
      (c c' : Cliente.t) :
  obter_cliente_por_id cid db = (Ok c, db) ->
  atualizar_cliente cid u db = (Ok c', db') ->
  exists n e,
    coluna_nn (ClienteUpdate.nome u) (Cliente.nome c) = Some n
    /\ coluna_nn (ClienteUpdate.email u) (Cliente.email c) = Some e
    /\ c' = atribuir c n e u
    /\ db' = banco_atualizado db c n e u.
Proof.
  intros Hc H. unfold atualizar_cliente, bind in H. rewrite Hc in H.
  assert (Hcommit : db_setattr_commit_refresh c u db = (Ok c', db')).
  { destruct (ClienteUpdate.get_email u) as [e0|]; [|exact H].
    destruct (truthy e0 && negb (String.eqb e0 (Cliente.email c))); [|exact H].
    unfold _validar_email_unico, bind, query_first in H.
    destruct (find _ (clientes db)); [discriminate H | exact H]. }
  clear H. unfold db_setattr_commit_refresh in Hcommit.
  destruct (coluna_nn (ClienteUpdate.nome u) (Cliente.nome c)) as [n|];
    [|discriminate Hcommit].
  destruct (coluna_nn (ClienteUpdate.email u) (Cliente.email c)) as [e|];
    [|discriminate Hcommit].
  destruct (negb (String.eqb e (Cliente.email c)) && existsb _ (clientes db));
    [discriminate Hcommit|].
  exists n, e. injection Hcommit as <- <-. repeat split.
Qed.

(** Conditions under which an Update goes through. *)
Lemma atualizar_cliente_ok (cid : Z) (u : ClienteUpdate.t) (db : Banco)
      (c : Cliente.t) (n e : string) :
  obter_cliente_por_id cid db = (Ok c, db) ->
  coluna_nn (ClienteUpdate.nome u) (Cliente.nome c) = Some n ->
  coluna_nn (ClienteUpdate.email u) (Cliente.email c) = Some e ->
  e = Cliente.email c \/ ~ In e (map Cliente.email (clientes db)) ->
  atualizar_cliente cid u db = (Ok (atribuir c n e u), banco_atualizado db c n e u).
Proof.
  intros Hc Hn He Hlivre. unfold atualizar_cliente, bind. rewrite Hc.
  assert (Hcommit : db_setattr_commit_refresh c u db
                    = (Ok (atribuir c n e u), banco_atualizado db c n e u)).
  { unfold db_setattr_commit_refresh. rewrite Hn, He.
    destruct (String.eqb_spec e (Cliente.email c)) as [E|E]; simpl; [reflexivity|].
    destruct Hlivre as [Hl|Hl]; [contradiction|].
    apply existsb_col_false in Hl. now rewrite Hl. }
  assert (Hg : forall e0, ClienteUpdate.get_email u = Some e0 -> e0 = e).
  { intros e0 H0. unfold ClienteUpdate.get_email in H0. unfold coluna_nn in He.
    destruct (ClienteUpdate.email u) as [[x|]|]; congruence. }
  destruct (ClienteUpdate.get_email u) as [e0|]; [|exact Hcommit].
  rewrite (Hg e0 eq_refl).
  destruct (truthy e && negb (String.eqb e (Cliente.email c))) eqn:G; [|exact Hcommit].
  apply andb_true_iff in G. destruct G as [_ G].
  apply negb_true_iff, String.eqb_neq in G.
  destruct Hlivre as [Hl|Hl]; [contradiction|].
  now rewrite (validar_email_livre _ _ Hl).
Qed.

Lemma obter_apos_update (cid : Z) (db : Banco) (c : Cliente.t) (n e : string)
      (u : ClienteUpdate.t) :
  obter_cliente_por_id cid db = (Ok c, db) ->
  obter_cliente_por_id cid (banco_atualizado db c n e u)
  = (Ok (atribuir c n e u), banco_atualizado db c n e u).
Proof.
  intro Hc. apply obter_por_id_ok in Hc.
  destruct (find_id_some _ _ _ Hc) as [_ Hid].
  apply obter_por_id_ok. simpl. rewrite Hid.
  apply (find_apos_update cid (fun r => atribuir r n e u)); [reflexivity | exact Hc].
Qed.

(** C4.  In every Update that succeeds, each of the five updatable fields
    holds the supplied value when the partial input has an entry for it and
    its value from before the update when it has none; id, cpf, cnpj,
    postal code and creation timestamp are as before; the returned record is
    the one stored ([GetByID] returns it) and no other customer is touched. *)
Theorem atualizar_cliente_campos (cid : Z) (u : ClienteUpdate.t)
        (db db' : Banco) (c c' : Cliente.t) :
  obter_cliente_por_id cid db = (Ok c, db) ->
  atualizar_cliente cid u db = (Ok c', db') ->
  campo_atualizado (ClienteUpdate.nome u)
                   (Some (Cliente.nome c)) (Some (Cliente.nome c'))
  /\ campo_atualizado (ClienteUpdate.email u)
                      (Some (Cliente.email c)) (Some (Cliente.email c'))
  /\ campo_atualizado (ClienteUpdate.idade u) (Cliente.idade c) (Cliente.idade c')
  /\ campo_atualizado (ClienteUpdate.telefone u)
                      (Cliente.telefone c) (Cliente.telefone c')
  /\ campo_atualizado (ClienteUpdate.endereco u)
                      (Cliente.endereco c) (Cliente.endereco c')
  /\ Cliente.id c' = Cliente.id c
  /\ Cliente.cpf c' = Cliente.cpf c
  /\ Cliente.cnpj c' = Cliente.cnpj c
  /\ Cliente.cep c' = Cliente.cep c
  /\ Cliente.data_criacao c' = Cliente.data_criacao c
  /\ obter_cliente_por_id cid db' = (Ok c', db')
  /\ (forall r, In r (clientes db) -> Cliente.id r <> cid -> In r (clientes db'))
  /\ pedidos db' = pedidos db.
Proof.
  intros Hc H.
  destruct (atualizar_cliente_inv _ _ _ _ _ _ Hc H) as [n [e [Hn [He [-> ->]]]]].
  pose proof (obter_apos_update cid db c n e u Hc) as Hget.
  apply obter_por_id_ok in Hc. destruct (find_id_some _ _ _ Hc) as [_ Hid].
  unfold campo_atualizado, coluna_nn in *.
  repeat split; simpl.
  - destruct (ClienteUpdate.nome u); congruence.
  - destruct (ClienteUpdate.email u); congruence.
  - unfold coluna. destruct (ClienteUpdate.idade u); reflexivity.
  - unfold coluna. destruct (ClienteUpdate.telefone u); reflexivity.
  - unfold coluna. destruct (ClienteUpdate.endereco u); reflexivity.
  - exact Hget.
  - intros r Hr Hne. rewrite Hid. now apply outros_apos_update.
Qed.

Lemma atualizar_cliente_campos_witness :
  exists c' db',
    atualizar_cliente 2 atualizacao_joao banco_dois = (Ok c', db')
    /\ Cliente.nome c' = "Joao Souza"
    /\ Cliente.email c' = "joao@example.com"
    /\ Cliente.idade c' = Some 52
    /\ Cliente.telefone c' = None
    /\ Cliente.endereco c' = Some "Av. Brasil, 100"
    /\ Cliente.id c' = 2
    /\ Cliente.cpf c' = "98765432100"
    /\ obter_cliente_por_id 2 db' = (Ok c', db').
Proof.
  exists (atribuir linha_joao "Joao Souza" "joao@example.com" atualizacao_joao).
  exists (banco_atualizado banco_dois linha_joao "Joao Souza" "joao@example.com"
                           atualizacao_joao).
  assert (H0 : obter_cliente_por_id 2 banco_dois = (Ok linha_joao, banco_dois))
    by (vm_compute; reflexivity).
  assert (H1 : atualizar_cliente 2 atualizacao_joao banco_dois
               = (Ok (atribuir linha_joao "Joao Souza" "joao@example.com"
                               atualizacao_joao),
                  banco_atualizado banco_dois linha_joao "Joao Souza"
                                   "joao@example.com" atualizacao_joao))
    by (vm_compute; reflexivity).
  destruct (atualizar_cliente_campos 2 atualizacao_joao banco_dois _ _ _ H0 H1)
    as [Hn [He [Hi [Ht [Hen [Hid [Hcpf [_ [_ [_ [Hget _]]]]]]]]]]].
  split; [exact H1|].
  split; [reflexivity|]. split; [reflexivity|].
  split; [exact Hi|]. split; [exact Ht|]. split; [exact Hen|].
  split; [exact Hid|]. split; [exact Hcpf | exact Hget].
Defined.

(** Rows of a table with a duplicate-free column are told apart by it. *)
Lemma nodup_col_inj {A B : Type} (f : A -> B) (l : list A) (x y : A) :
  NoDup (map f l) -> In x l -> In y l -> f x = f y -> x = y.
Proof.
  induction l as [|a l IH]; simpl; intros Hnd Hx Hy E; [contradiction|].
  inversion Hnd as [|b bs Hna Hnd']; subst.
  destruct Hx as [->|Hx], Hy as [->|Hy]; trivial.
  - exfalso; apply Hna. rewrite E. now apply in_map.
  - exfalso; apply Hna. rewrite <- E. now apply in_map.
  - now apply IH.
Qed.

Lemma atualizar_cliente_email_de_outro (cid : Z) (u : ClienteUpdate.t)
      (db : Banco) (c : Cliente.t) (e : string) :
  obter_cliente_por_id cid db = (Ok c, db) ->
  ClienteUpdate.get_email u = Some e ->
  e <> "" -> e <> Cliente.email c ->
  In e (map Cliente.email (clientes db)) ->
  atualizar_cliente cid u db
  = (Raise (HTTPException HTTP_400_BAD_REQUEST (EmailJaCadastrado e)), db).
Proof.
  intros Hc Hg Hne Hdif Hin. unfold atualizar_cliente, bind. rewrite Hc, Hg.
  unfold truthy.
  destruct (String.eqb_spec e "") as [E|_]; [contradiction|].
  destruct (String.eqb_spec e (Cliente.email c)) as [E|_]; [contradiction|].
  simpl. now rewrite (validar_email_usado _ _ Hin).
Qed.

Lemma atribuir_email_proprio (c : Cliente.t) :
  atribuir c (Cliente.nome c) (Cliente.email c) (so_email (Cliente.email c)) = c.
Proof. destruct c; reflexivity. Qed.

(** Writing a row back onto itself leaves the table as it is. *)
Lemma banco_atualizado_mesmo (db : Banco) (c : Cliente.t) (n e : string)
      (u : ClienteUpdate.t) :
  NoDup (map Cliente.id (clientes db)) -> In c (clientes db) ->
  atribuir c n e u = c ->
  banco_atualizado db c n e u = db.
Proof.
  intros Hnd Hin Heq. unfold banco_atualizado.
  replace (map _ (clientes db)) with (clientes db); [destruct db; reflexivity|].
  rewrite <- (map_id (clientes db)) at 1. apply map_ext_in. intros r Hr.
  destruct (Z.eqb_spec (Cliente.id r) (Cliente.id c)) as [E|E]; [|reflexivity].
  rewrite (nodup_col_inj Cliente.id (clientes db) r c Hnd Hr Hin E).
  now symmetry.
Qed.

(** C5 (as amended).  For an existing customer of a store whose emails are
    pairwise distinct: an Update that supplies a non-empty email held by a
    different stored customer fails with the duplicate-email error (HTTP 400)
    and leaves the store unchanged; an Update that supplies the customer's
    own current email never raises the duplicate-email error and has exactly
    the result and the store of the same Update without the email entry; and
    the Update that supplies nothing but the customer's own email succeeds
    and returns the customer as stored (the store unchanged under the primary
    key). *)
Theorem atualizar_cliente_email_unico (cid : Z) (u : ClienteUpdate.t)
        (db : Banco) (c : Cliente.t) :
  obter_cliente_por_id cid db = (Ok c, db) ->
  NoDup (map Cliente.email (clientes db)) ->
  (forall e c2,
      ClienteUpdate.get_email u = Some e -> e <> "" ->
      In c2 (clientes db) -> Cliente.id c2 <> Cliente.id c ->
      Cliente.email c2 = e ->
      atualizar_cliente cid u db
      = (Raise (HTTPException 400 (EmailJaCadastrado e)), db))
  /\ (ClienteUpdate.get_email u = Some (Cliente.email c) ->
      (forall s e, fst (atualizar_cliente cid u db)
                   <> Raise (HTTPException s (EmailJaCadastrado e)))
      /\ atualizar_cliente cid u db = atualizar_cliente cid (sem_email u) db)
  /\ (fst (atualizar_cliente cid (so_email (Cliente.email c)) db) = Ok c
      /\ (NoDup (map Cliente.id (clientes db)) ->
          atualizar_cliente cid (so_email (Cliente.email c)) db = (Ok c, db))).
Proof.
  intros Hc Hnd.
  assert (Hin : In c (clientes db)).
  { apply obter_por_id_ok in Hc. now apply find_id_some in Hc. }
  split; [|split].
  - intros e c2 Hg Hne Hin2 Hid He.
    apply (atualizar_cliente_email_de_outro cid u db c e); trivial.
    + intro E. apply Hid. f_equal.
      apply (nodup_col_inj Cliente.email (clientes db)); trivial. congruence.
    + rewrite <- He. now apply in_map.
  - intro Hg.
    assert (Hemail : coluna_nn (ClienteUpdate.email u) (Cliente.email c)
                     = Some (Cliente.email c)).
    { unfold ClienteUpdate.get_email in Hg. unfold coluna_nn.
      destruct (ClienteUpdate.email u) as [[x|]|]; congruence. }
    assert (Hsem : atualizar_cliente cid u db = db_setattr_commit_refresh c u db).
    { unfold atualizar_cliente, bind. rewrite Hc, Hg.
      now rewrite String.eqb_refl, andb_false_r. }
    split.
    + intros s e. rewrite Hsem.
      unfold db_setattr_commit_refresh. rewrite Hemail.
      destruct (coluna_nn (ClienteUpdate.nome u) (Cliente.nome c));
        [|simpl; discriminate].
      rewrite String.eqb_refl. simpl. discriminate.
    + rewrite Hsem. unfold atualizar_cliente, bind. rewrite Hc. simpl.
      unfold db_setattr_commit_refresh. rewrite Hemail. reflexivity.
  - assert (H : atualizar_cliente cid (so_email (Cliente.email c)) db
                = (Ok c, banco_atualizado db c (Cliente.nome c) (Cliente.email c)
                                          (so_email (Cliente.email c)))).
    { rewrite (atualizar_cliente_ok cid (so_email (Cliente.email c)) db c
                 (Cliente.nome c) (Cliente.email c)
                 Hc eq_refl eq_refl (or_introl eq_refl)).
      now rewrite atribuir_email_proprio. }
    split; [now rewrite H|].
    intro Hid. rewrite H. f_equal.
    apply banco_atualizado_mesmo; trivial. apply atribuir_email_proprio.
Qed.

Lemma atualizar_cliente_email_unico_witness :
  atualizar_cliente 2 (so_email "maria@example.com") banco_dois
  = (Raise (HTTPException 400 (EmailJaCadastrado "maria@example.com")), banco_dois)
  /\ atualizar_cliente 2 (so_email "joao@example.com") banco_dois
     = (Ok linha_joao, banco_dois).
Proof.
  assert (H0 : obter_cliente_por_id 2 banco_dois = (Ok linha_joao, banco_dois))
    by (vm_compute; reflexivity).
  assert (Hnd : NoDup (map Cliente.email (clientes banco_dois))).
  { vm_compute. constructor.
    - intros [H|[]]. discriminate H.
    - constructor; [intros [] | constructor]. }
  assert (Hid : NoDup (map Cliente.id (clientes banco_dois))).
  { vm_compute. constructor.
    - intros [H|[]]. discriminate H.
    - constructor; [intros [] | constructor]. }
  split.
  - apply (proj1 (atualizar_cliente_email_unico 2 (so_email "maria@example.com")
                    banco_dois linha_joao H0 Hnd)
                 "maria@example.com" linha_maria).
    + reflexivity.
    + discriminate.
    + vm_compute. left; reflexivity.
    + vm_compute. discriminate.
    + reflexivity.
  - apply (proj2 (proj2 (proj2 (atualizar_cliente_email_unico 2 ClienteUpdate.vazio
                                  banco_dois linha_joao H0 Hnd))) Hid).
Defined.

(** C5, counterexample.  With Maria and Joao stored, the Update of Maria
    that supplies her own current email and a null name does not succeed:
    the commit raises [IntegrityError] (name is NOT NULL) and the store is
    unchanged. *)
Lemma atualizar_cliente_email_proprio_falha :
  ClienteUpdate.get_email email_proprio_nome_nulo = Some (Cliente.email linha_maria)
  /\ obter_cliente_por_id 1 banco_dois = (Ok linha_maria, banco_dois)
  /\ atualizar_cliente 1 email_proprio_nome_nulo banco_dois
     = (Raise IntegrityError, banco_dois).
Proof. repeat split; vm_compute; reflexivity. Qed.

(** ** UpdateEmail against Update *)






(** ** Fields the update input takes *)

Lemma model_fields_set_atualizacao_de (sn se si st sen : bool) (e : string) :
  ClienteUpdate_model_fields_set (atualizacao_de sn se si st sen e)
  = campos_de sn se si st sen.
Proof. destruct sn, se, si, st, sen; reflexivity. Qed.

Lemma atualizacao_de_valida (EmailStr : string -> option string)
      (sn se si st sen : bool) (valor e : string) :
  (se = true -> EmailStr valor = Some e) ->
  ClienteUpdate_valido EmailStr (atualizacao_de sn se si st sen e).
Proof.
  intro H. unfold ClienteUpdate_valido.
  exists (if sn then Some (Some "Nome Atualizado") else None).
  exists (if se then Some (Some valor) else None).
  exists (if si then Some (Some 30) else None).
  exists (if st then Some (Some "11900000000") else None).
  exists (if sen then Some (Some "Rua Nova, 1") else None).
  unfold ClienteUpdate_init, atualizacao_de. destruct se; [|reflexivity].
  now rewrite (H eq_refl).
Qed.

(** C9 (as amended).  Update takes any subset of the five fields that
    [ClienteUpdate] declares (name, email, age, phone, address): for an
    existing customer and each such subset there is an update input, one the
    constructor builds, that supplies exactly those fields and that the
    operation accepts and applies, the returned and stored record holding the
    supplied value in each supplied field and the old value in every other
    (for a subset with the email, given a validated email that is the
    customer's own or that no stored customer holds).  Cpf, cnpj and postal
    code are not fields of the update input and no Update changes them. *)
Theorem atualizar_cliente_subconjunto
        (EmailStr : string -> option string) (cid : Z) (db : Banco)
        (c : Cliente.t) (sn se si st sen : bool) (valor e : string) :
  obter_cliente_por_id cid db = (Ok c, db) ->
  (se = true ->
   EmailStr valor = Some e
   /\ (e = Cliente.email c \/ ~ In e (map Cliente.email (clientes db)))) ->
  (exists u c' db',
      ClienteUpdate_valido EmailStr u
      /\ ClienteUpdate_model_fields_set u = campos_de sn se si st sen
      /\ atualizar_cliente cid u db = (Ok c', db')
      /\ campo_atualizado (ClienteUpdate.nome u)
                          (Some (Cliente.nome c)) (Some (Cliente.nome c'))
      /\ campo_atualizado (ClienteUpdate.email u)
                          (Some (Cliente.email c)) (Some (Cliente.email c'))
      /\ campo_atualizado (ClienteUpdate.idade u)
                          (Cliente.idade c) (Cliente.idade c')
      /\ campo_atualizado (ClienteUpdate.telefone u)
                          (Cliente.telefone c) (Cliente.telefone c')
      /\ campo_atualizado (ClienteUpdate.endereco u)
                          (Cliente.endereco c) (Cliente.endereco c')
      /\ obter_cliente_por_id cid db' = (Ok c', db'))
  /\ (forall u c' db',
         atualizar_cliente cid u db = (Ok c', db') ->
         Cliente.cpf c' = Cliente.cpf c
         /\ Cliente.cnpj c' = Cliente.cnpj c
         /\ Cliente.cep c' = Cliente.cep c).
Proof.
  intros Hc Hse. split.
  - set (u := atualizacao_de sn se si st sen e).
    set (n' := if sn then "Nome Atualizado" else Cliente.nome c).
    set (e' := if se then e else Cliente.email c).
    assert (H : atualizar_cliente cid u db
                = (Ok (atribuir c n' e' u), banco_atualizado db c n' e' u)).
    { apply atualizar_cliente_ok; trivial.
      - unfold u, n'. destruct sn; reflexivity.
      - unfold u, e'. destruct se; reflexivity.
      - unfold e'. destruct se; [exact (proj2 (Hse eq_refl)) | now left]. }
    exists u, (atribuir c n' e' u), (banco_atualizado db c n' e' u).
    split; [|split; [|split]].
    + apply (atualizacao_de_valida EmailStr sn se si st sen valor e).
      intro E. exact (proj1 (Hse E)).
    + apply model_fields_set_atualizacao_de.
    + exact H.
    + pose proof (obter_apos_update cid db c n' e' u Hc) as Hget.
      unfold campo_atualizado, u, n', e'.
      destruct sn, se, si, st, sen; simpl; repeat split; exact Hget.
  - intros u c' db' H.
    destruct (atualizar_cliente_inv _ _ _ _ _ _ Hc H) as [n [e0 [_ [_ [-> _]]]]].
    repeat split.
Qed.

Lemma atualizar_cliente_subconjunto_witness :
  exists u c' db',
    ClienteUpdate_model_fields_set u = [CampoNome; CampoEmail; CampoTelefone]
    /\ atualizar_cliente 2 u banco_dois = (Ok c', db')
    /\ campo_atualizado (ClienteUpdate.nome u)
                        (Some "Joao Souza") (Some (Cliente.nome c'))
    /\ campo_atualizado (ClienteUpdate.email u)
                        (Some "joao@example.com") (Some (Cliente.email c'))
    /\ campo_atualizado (ClienteUpdate.idade u) None (Cliente.idade c')
    /\ campo_atualizado (ClienteUpdate.telefone u)
                        (Some "11999990000") (Cliente.telefone c')
    /\ obter_cliente_por_id 2 db' = (Ok c', db').
Proof.
  assert (H0 : obter_cliente_por_id 2 banco_dois = (Ok linha_joao, banco_dois))
    by (vm_compute; reflexivity).
  assert (H1 : true = true ->
               (fun s : string => Some s) "joao@example.com" = Some "joao@example.com"
               /\ ("joao@example.com" = Cliente.email linha_joao
                   \/ ~ In "joao@example.com"
                          (map Cliente.email (clientes banco_dois)))).
  { intros _. split; [reflexivity | left; reflexivity]. }
  destruct (atualizar_cliente_subconjunto (fun s => Some s) 2 banco_dois linha_joao
              true true false true false "joao@example.com" "joao@example.com"
              H0 H1)
    as [[u [c' [db' [_ [Hf [Hr [Hn [He [Hi [Ht [_ Hg]]]]]]]]]]] _].
  exists u, c', db'. repeat split; assumption.
Defined.

(** C9, counterexample.  The cpf is a field of the customer field set but
    not a field of the update input, and with Maria and Joao stored no
    Update of Maria, whatever its input, returns a record whose cpf is other
    than the one she has: a request to change it is never applied. *)
Lemma atualizar_cliente_sem_cpf :
  In CampoCpf ClienteBase_model_fields
  /\ ~ In CampoCpf ClienteUpdate_model_fields
  /\ (forall u, ~ In CampoCpf (ClienteUpdate_model_fields_set u))
  /\ (forall u c' db',
         atualizar_cliente 1 u banco_dois = (Ok c', db') ->
         Cliente.cpf c' = "12345678901").
Proof.
  split; [|split; [|split]].
  - simpl. tauto.
  - simpl. intros [H|[H|[H|[H|[H|[]]]]]]; discriminate H.
  - intros u H. unfold ClienteUpdate_model_fields_set in H.
    repeat (apply in_app_or in H; destruct H as [H|H]);
      match type of H with
      | In _ (if ?b then _ else _) => destruct b; simpl in H
      end; try contradiction; destruct H as [H|[]]; discriminate H.
  - intros u c' db' H.
    assert (H0 : obter_cliente_por_id 1 banco_dois = (Ok linha_maria, banco_dois))
      by (vm_compute; reflexivity).
    destruct (atualizar_cliente_inv _ _ _ _ _ _ H0 H) as [n [e [_ [_ [-> _]]]]].
    reflexivity.
Qed.

(** ** Uniqueness invariant *)

Lemma nodup_col_snoc {A B : Type} (f : A -> B) (l : list A) (x : A) :
  NoDup (map f l) -> ~ In (f x) (map f l) -> NoDup (map f (l ++ [x])).
Proof.
  induction l as [|a l IH]; simpl; intros Hnd Hx.
  - constructor; [tauto | constructor].
  - inversion Hnd as [|b bs Hna Hnd']; subst. constructor.
    + rewrite map_app, in_app_iff. simpl. intros [H|[H|[]]]; [tauto|].
      apply Hx. left. symmetry. exact H.
    + apply IH; tauto.
Qed.

(** A DELETE keeps a duplicate-free column duplicate-free. *)
Lemma coluna_unica_apos_delete {B : Type} (col : Cliente.t -> B)
      (fica : Cliente.t -> bool) (cs : list Cliente.t)
      (Hnd : NoDup (map col cs)) :
  NoDup (map col (filter fica cs)).
Proof.
  induction cs as [|a cs IH]; simpl; [constructor|].
  simpl in Hnd. inversion Hnd as [|b bs Hna Hnd']; subst.
  destruct (fica a); simpl; [|now apply IH].
  constructor; [|now apply IH].
  intro H. apply Hna. apply in_map_iff in H. destruct H as [r [E Hr]].
  apply filter_In in Hr. rewrite <- E. apply in_map. tauto.
Qed.

Section Update_de_linha.
Variables (cid : Z) (n e : string) (u : ClienteUpdate.t).

Let upd (r : Cliente.t) : Cliente.t :=
  if Z.eqb (Cliente.id r) cid then atribuir r n e u else r.

Lemma ids_apos_update (l : list Cliente.t) :
  map Cliente.id (map upd l) = map Cliente.id l.
Proof.
  rewrite map_map. apply map_ext. intro r. unfold upd.
  destruct (Z.eqb (Cliente.id r) cid); reflexivity.
Qed.

Lemma cpfs_apos_update (l : list Cliente.t) :
  map Cliente.cpf (map upd l) = map Cliente.cpf l.
Proof.
  rewrite map_map. apply map_ext. intro r. unfold upd.
  destruct (Z.eqb (Cliente.id r) cid); reflexivity.
Qed.

Lemma update_sem_linha (l : list Cliente.t) :
  ~ In cid (map Cliente.id l) -> map upd l = l.
Proof.
  induction l as [|a l IH]; simpl; intro H; [reflexivity|].
  unfold upd at 1. destruct (Z.eqb_spec (Cliente.id a) cid) as [E|E].
  - exfalso; apply H; left; exact E.
  - f_equal. apply IH. intro H0; apply H; right; exact H0.
Qed.

Lemma emails_apos_update (l : list Cliente.t) (x : string) :
  In x (map Cliente.email (map upd l)) ->
  x = e \/ In x (map Cliente.email l).
Proof.
  induction l as [|a l IH]; simpl; [tauto|].
  intros [H|H].
  - unfold upd in H. destruct (Z.eqb (Cliente.id a) cid); simpl in H; auto.
  - destruct (IH H); auto.
Qed.

(** Changing one row's email to an unused one keeps the column
    duplicate-free. *)
Lemma nodup_email_novo (l : list Cliente.t) :
  NoDup (map Cliente.id l) -> NoDup (map Cliente.email l) ->
  ~ In e (map Cliente.email l) ->
  NoDup (map Cliente.email (map upd l)).
Proof.
  induction l as [|a l IH]; simpl; intros Hid Hem Hne; [constructor|].
  inversion Hid as [|b bs Hia Hid']; subst.
  inversion Hem as [|b bs Hea Hem']; subst.
  unfold upd at 1. destruct (Z.eqb_spec (Cliente.id a) cid) as [E|E].
  - rewrite update_sem_linha by (rewrite <- E; exact Hia).
    simpl. constructor; [tauto | exact Hem'].
  - constructor; [|apply IH; tauto].
    intro H. apply emails_apos_update in H. destruct H as [H|H]; [|tauto].
    apply Hne. left. exact H.
Qed.

(** Writing back the email a row already has changes no email. *)
Lemma emails_mesmo_email (l : list Cliente.t) (c : Cliente.t) :
  NoDup (map Cliente.id l) -> In c l -> Cliente.id c = cid ->
  e = Cliente.email c ->
  map Cliente.email (map upd l) = map Cliente.email l.
Proof.
  intros Hid Hc Hcid He. rewrite map_map. apply map_ext_in. intros r Hr.
  unfold upd. destruct (Z.eqb_spec (Cliente.id r) cid) as [E|E]; [|reflexivity].
  simpl. rewrite He. f_equal.
  apply (nodup_col_inj Cliente.id l); trivial. congruence.
Qed.
End Update_de_linha.

(** The store left by a commit of an update: untouched, or the UPDATE
    applied with an email that is the row's own or was unused. *)
Lemma db_setattr_commit_estado (c : Cliente.t) (u : ClienteUpdate.t) (db : Banco) :
  snd (db_setattr_commit_refresh c u db) = db
  \/ exists n e,
       (e = Cliente.email c \/ ~ In e (map Cliente.email (clientes db)))
       /\ snd (db_setattr_commit_refresh c u db) = banco_atualizado db c n e u.
Proof.
  unfold db_setattr_commit_refresh.
  destruct (coluna_nn (ClienteUpdate.nome u) (Cliente.nome c)) as [n|]; [|now left].
  destruct (coluna_nn (ClienteUpdate.email u) (Cliente.email c)) as [e|]; [|now left].
  destruct (String.eqb_spec e (Cliente.email c)) as [E|E]; simpl.
  - right. exists n, e. split; [now left | reflexivity].
  - destruct (existsb _ (clientes db)) eqn:X; [now left|].
    right. exists n, e. split; [|reflexivity].
    right. now apply existsb_col_false.
Qed.

Lemma integro_apos_commit (c : Cliente.t) (u : ClienteUpdate.t) (db : Banco) :
  In c (clientes db) ->
  integro db -> integro (snd (db_setattr_commit_refresh c u db)).
Proof.
  intros Hc Hint.
  destruct (db_setattr_commit_estado c u db) as [->|[n [e [Hlivre ->]]]];
    [exact Hint|].
  destruct Hint as [Hid [Hem Hcpf]]. unfold integro, banco_atualizado. simpl.
  split; [|split].
  - now rewrite ids_apos_update.
  - destruct Hlivre as [He|He].
    + rewrite (emails_mesmo_email (Cliente.id c) n e u (clientes db) c); trivial.
    + now apply nodup_email_novo.
  - now rewrite cpfs_apos_update.
Qed.

Lemma integro_criar (agora : Z) (d : ClienteCreate.t) (db : Banco) :
  integro db -> integro (snd (criar_cliente agora d db)).
Proof.
  intro Hint. unfold criar_cliente, bind.
  unfold _validar_cpf_unico at 1. unfold bind, query_first.
  destruct (find _ (clientes db)); [exact Hint|]. unfold ret.
  unfold _validar_email_unico, bind, query_first.
  destruct (find _ (clientes db)); [exact Hint|]. unfold ret.
  unfold db_add_commit_refresh.
  destruct (viola_unique (clientes db) d) eqn:V; [exact Hint|].
  apply viola_unique_false in V. destruct V as [He [Hc _]].
  destruct Hint as [Hid [Hem Hcpf]]. unfold integro. simpl.
  split; [|split]; apply nodup_col_snoc; trivial.
  apply proximo_id_novo.
Qed.

Lemma integro_atualizar (cid : Z) (u : ClienteUpdate.t) (db : Banco) :
  integro db -> integro (snd (atualizar_cliente cid u db)).
Proof.
  intro Hint. unfold atualizar_cliente, bind.
  destruct (obter_cliente_por_id cid db) as [[c|x] db1] eqn:Hc; [|].
  - assert (db1 = db) as ->.
    { unfold obter_cliente_por_id, bind, query_first in Hc.
      destruct (find _ (clientes db)); unfold ret, raise in Hc; congruence. }
    assert (Hin : In c (clientes db)).
    { apply obter_por_id_ok in Hc. now apply find_id_some in Hc. }
    destruct (ClienteUpdate.get_email u) as [e0|];
      [|now apply integro_apos_commit].
    destruct (truthy e0 && negb (String.eqb e0 (Cliente.email c)));
      [|now apply integro_apos_commit].
    unfold _validar_email_unico, bind, query_first.
    destruct (find _ (clientes db)); [exact Hint|].
    now apply integro_apos_commit.
  - unfold obter_cliente_por_id, bind, query_first in Hc.
    destruct (find _ (clientes db)); unfold ret, raise in Hc;
      injection Hc as _ <-; exact Hint.
Qed.

Lemma integro_email (cid : Z) (e : string) (db : Banco) :
  integro db -> integro (snd (atualizar_email cid e db)).
Proof.
  intro Hint. unfold atualizar_email, bind.
  destruct (obter_cliente_por_id cid db) as [[c|x] db1] eqn:Hc; [|].
  - assert (db1 = db) as ->.
    { unfold obter_cliente_por_id, bind, query_first in Hc.
      destruct (find _ (clientes db)); unfold ret, raise in Hc; congruence. }
    assert (Hin : In c (clientes db)).
    { apply obter_por_id_ok in Hc. now apply find_id_some in Hc. }
    destruct (negb (String.eqb e (Cliente.email c)));
      [|now apply integro_apos_commit].
    unfold _validar_email_unico, bind, query_first.
    destruct (find _ (clientes db)); [exact Hint|].
    now apply integro_apos_commit.
  - unfold obter_cliente_por_id, bind, query_first in Hc.
    destruct (find _ (clientes db)); unfold ret, raise in Hc;
      injection Hc as _ <-; exact Hint.
Qed.

Lemma integro_deletar (cid : Z) (db : Banco) :
  integro db -> integro (snd (deletar_cliente cid db)).
Proof.
  intro Hint. unfold deletar_cliente, bind.
  unfold obter_cliente_por_id, bind, query_first.
  destruct (find _ (clientes db)) as [c|]; [|exact Hint].
  unfold ret, rel_pedidos.
  destruct (Nat.ltb 0 _); [exact Hint|].
  destruct Hint as [Hid [Hem Hcpf]]. unfold integro. simpl.
  split; [|split]; now apply coluna_unica_apos_delete.
Qed.

Lemma alcancavel_integro (db : Banco) : alcancavel db -> integro db.
Proof.
  induction 1.
  - repeat split; constructor.
  - now apply integro_criar.
  - now apply integro_atualizar.
  - now apply integro_email.
  - now apply integro_deletar.
Qed.

(** C6.  In every store reached from the empty store by Create, Update,
    UpdateEmail and Delete calls, the emails of the stored customers are
    pairwise distinct and so are their cpfs: two different records never
    share an email or a cpf. *)
Theorem unicidade_alcancavel (db : Banco) :
  alcancavel db ->
  NoDup (map Cliente.email (clientes db))
  /\ NoDup (map Cliente.cpf (clientes db))
  /\ (forall c1 c2, In c1 (clientes db) -> In c2 (clientes db) -> c1 <> c2 ->
        Cliente.email c1 <> Cliente.email c2 /\ Cliente.cpf c1 <> Cliente.cpf c2).
Proof.
  intro H. destruct (alcancavel_integro db H) as [_ [Hem Hcpf]].
  split; [exact Hem | split; [exact Hcpf|]].
  intros c1 c2 H1 H2 Hne. split; intro E; apply Hne.
  - now apply (nodup_col_inj Cliente.email (clientes db)).
  - now apply (nodup_col_inj Cliente.cpf (clientes db)).
Qed.

Lemma unicidade_alcancavel_witness :
  NoDup (map Cliente.email (clientes banco_email_vazio))
  /\ NoDup (map Cliente.cpf (clientes banco_email_vazio)).
Proof.
  assert (H : alcancavel banco_email_vazio).
  { unfold banco_email_vazio, banco_dois.
    apply alc_email, alc_criar, alc_criar, alc_vazio. }
  destruct (unicidade_alcancavel banco_email_vazio H) as [H1 [H2 _]].
  split; assumption.
Defined.

(** ** Search by name *)

Lemma ilike_pct (p s : string) :
  ilike (String "%" p) s
  = ilike p s
    || match s with
       | EmptyString => false
       | String _ s' => ilike (String "%" p) s'
       end.
Proof. destruct s; reflexivity. Qed.

Lemma ilike_pct_tudo (s : string) : ilike "%" s = true.
Proof.
  induction s as [|d s IH].
  - reflexivity.
  - rewrite ilike_pct. rewrite IH. apply orb_true_r.
Qed.




(** A customer named "Maria Silva" is found by the three queries of the
    specification, in any store. *)
Lemma buscar_por_nome_maria (db : Banco) (c : Cliente.t) (q : string) :
  In c (clientes db) -> Cliente.nome c = "Maria Silva" ->
  q = "maria" \/ q = "SILVA" \/ q = "ia Si" ->
  exists l, buscar_por_nome q db = (Ok l, db) /\ In c l.
Proof.
  intros Hc Hn Hq. eexists. split; [reflexivity|].
  apply filter_In. split; [exact Hc|]. rewrite Hn.
  destruct Hq as [->|[->| ->]]; reflexivity.
Qed.

(** C7, evaluated where it fails.  With Maria Silva and Joao Souza stored,
    the query ["_"] returns both customers although neither name contains
    an underscore: the query is pasted into the LIKE pattern, where [_]
    stands for any single character. *)
Theorem buscar_por_nome_sublinhado :
  buscar_por_nome "_" banco_dois = (Ok [linha_maria; linha_joao], banco_dois)
  /\ contem_ci "_" (Cliente.nome linha_maria) = false
  /\ contem_ci "_" (Cliente.nome linha_joao) = false.
Proof. repeat split; vm_compute; reflexivity. Qed.

(** * Further properties of the service *)

(** ** Outcomes of the four mutating methods *)

Lemma obter_por_id_casos (cid : Z) (db : Banco) :
  (exists c, obter_cliente_por_id cid db = (Ok c, db)
             /\ In c (clientes db) /\ Cliente.id c = cid)
  \/ (~ In cid (map Cliente.id (clientes db))
      /\ obter_cliente_por_id cid db
         = (Raise (HTTPException HTTP_404_NOT_FOUND (ClienteIdNaoEncontrado cid)), db)).
Proof.
  destruct (in_dec Z.eq_dec cid (map Cliente.id (clientes db))) as [H|H].
  - left. now apply obter_por_id_presente.
  - right. split; [exact H | now apply obter_por_id_ausente].
Qed.

Lemma criar_cliente_casos (agora : Z) (d : ClienteCreate.t) (db : Banco) :
  (exists e, criar_cliente agora d db = (Raise e, db))
  \/ (viola_unique (clientes db) d = false
      /\ criar_cliente agora d db
         = (Ok (Cliente_novo (proximo_id (clientes db)) agora d),
            mkBanco (clientes db ++ [Cliente_novo (proximo_id (clientes db)) agora d])
                    (pedidos db))).
Proof.
  destruct (in_dec string_dec (ClienteCreate.cpf d) (map Cliente.cpf (clientes db)))
    as [Hc|Hc].
  { left. eexists. now apply criar_cliente_cpf_usado. }
  destruct (in_dec string_dec (ClienteCreate.email d) (map Cliente.email (clientes db)))
    as [He|He].
  { left. eexists. now apply criar_cliente_email_usado. }
  rewrite criar_cliente_validado by assumption. unfold db_add_commit_refresh.
  destruct (viola_unique (clientes db) d).
  - left. eexists. reflexivity.
  - right. split; reflexivity.
Qed.

(** Outcome of the commit of an update, case by case. *)
Lemma db_setattr_commit_casos (c : Cliente.t) (u : ClienteUpdate.t) (db : Banco) :
  db_setattr_commit_refresh c u db = (Raise IntegrityError, db)
  \/ exists n e,
       coluna_nn (ClienteUpdate.nome u) (Cliente.nome c) = Some n
       /\ coluna_nn (ClienteUpdate.email u) (Cliente.email c) = Some e
       /\ (e = Cliente.email c \/ ~ In e (map Cliente.email (clientes db)))
       /\ db_setattr_commit_refresh c u db
          = (Ok (atribuir c n e u), banco_atualizado db c n e u).
Proof.
  unfold db_setattr_commit_refresh.
  destruct (coluna_nn (ClienteUpdate.nome u) (Cliente.nome c)) as [n|]; [|now left].
  destruct (coluna_nn (ClienteUpdate.email u) (Cliente.email c)) as [e|]; [|now left].
  destruct (String.eqb_spec e (Cliente.email c)) as [E|E]; simpl.
  - right. exists n, e. repeat split; trivial. now left.
  - destruct (existsb _ (clientes db)) eqn:X; [now left|].
    right. exists n, e. repeat split; trivial.
    right. now apply existsb_col_false.
Qed.

(** With the customer found, Update either stops at the uniqueness check or
    hands over to the commit. *)
Lemma atualizar_cliente_desdobra (cid : Z) (u : ClienteUpdate.t) (db : Banco)
      (c : Cliente.t) :
  obter_cliente_por_id cid db = (Ok c, db) ->
  (exists e0, ClienteUpdate.get_email u = Some e0 /\ e0 <> "" /\
              e0 <> Cliente.email c /\ In e0 (map Cliente.email (clientes db)) /\
              atualizar_cliente cid u db
              = (Raise (HTTPException HTTP_400_BAD_REQUEST (EmailJaCadastrado e0)), db))
  \/ ((forall e0, ClienteUpdate.get_email u = Some e0 ->
                  e0 = "" \/ e0 = Cliente.email c
                  \/ ~ In e0 (map Cliente.email (clientes db)))
      /\ atualizar_cliente cid u db = db_setattr_commit_refresh c u db).
Proof.
  intro Hc. unfold atualizar_cliente, bind. rewrite Hc.
  destruct (ClienteUpdate.get_email u) as [e0|].
  2:{ right. split; [discriminate | reflexivity]. }
  unfold truthy.
  destruct (String.eqb_spec e0 "") as [E1|E1]; simpl.
  { right. split; [|reflexivity]. intros e1 H1. injection H1 as <-. now left. }
  destruct (String.eqb_spec e0 (Cliente.email c)) as [E2|E2]; simpl.
  { right. split; [|reflexivity]. intros e1 H1. injection H1 as <-. right. now left. }
  destruct (in_dec string_dec e0 (map Cliente.email (clientes db))) as [H|H].
  - left. exists e0. rewrite (validar_email_usado _ _ H). repeat split; trivial.
  - right. rewrite (validar_email_livre _ _ H). split; [|reflexivity].
    intros e1 H1. injection H1 as <-. right. now right.
Qed.

Lemma atualizar_cliente_casos (cid : Z) (u : ClienteUpdate.t) (db : Banco) :
  (exists x, atualizar_cliente cid u db = (Raise x, db))
  \/ exists c n e,
       obter_cliente_por_id cid db = (Ok c, db)
       /\ coluna_nn (ClienteUpdate.nome u) (Cliente.nome c) = Some n
       /\ coluna_nn (ClienteUpdate.email u) (Cliente.email c) = Some e
       /\ (e = Cliente.email c \/ ~ In e (map Cliente.email (clientes db)))
       /\ atualizar_cliente cid u db
          = (Ok (atribuir c n e u), banco_atualizado db c n e u).
Proof.
  destruct (obter_por_id_casos cid db) as [[c [Hc _]]|[_ Hc]].
  2:{ left. eexists. unfold atualizar_cliente, bind. now rewrite Hc. }
  destruct (atualizar_cliente_desdobra cid u db c Hc) as [[e0 [_ [_ [_ [_ H]]]]]|[_ H]].
  { left. eexists. exact H. }
  rewrite H.
  destruct (db_setattr_commit_casos c u db) as [R|[n [e [Hn [He [Hl R]]]]]].
  - left. eexists. exact R.
  - right. exists c, n, e. repeat split; trivial.
Qed.

(** UpdateEmail, with the customer found: the uniqueness check, then the
    commit. *)
Lemma atualizar_email_desdobra (cid : Z) (e : string) (db : Banco) (c : Cliente.t) :
  obter_cliente_por_id cid db = (Ok c, db) ->
  (e <> Cliente.email c /\ In e (map Cliente.email (clientes db)) /\
   atualizar_email cid e db
   = (Raise (HTTPException HTTP_400_BAD_REQUEST (EmailJaCadastrado e)), db))
  \/ ((e = Cliente.email c \/ ~ In e (map Cliente.email (clientes db)))
      /\ atualizar_email cid e db
         = (Ok (com_email c e), banco_atualizado db c (Cliente.nome c) e (so_email e))).
Proof.
  intro Hc. unfold atualizar_email, bind. rewrite Hc.
  assert (Hcommit : e = Cliente.email c \/ ~ In e (map Cliente.email (clientes db)) ->
            db_setattr_commit_refresh c (so_email e) db
            = (Ok (com_email c e),
               banco_atualizado db c (Cliente.nome c) e (so_email e))).
  { intro Hl. unfold db_setattr_commit_refresh. simpl.
    destruct (String.eqb_spec e (Cliente.email c)) as [E|E]; simpl; [reflexivity|].
    destruct Hl as [Hl|Hl]; [contradiction|].
    apply existsb_col_false in Hl. now rewrite Hl. }
  destruct (String.eqb_spec e (Cliente.email c)) as [E|E]; simpl.
  { right. split; [now left | apply Hcommit; now left]. }
  destruct (in_dec string_dec e (map Cliente.email (clientes db))) as [H|H].
  - left. rewrite (validar_email_usado _ _ H). repeat split; trivial.
  - right. rewrite (validar_email_livre _ _ H). split; [now right|].
    apply Hcommit. now right.
Qed.

Lemma deletar_cliente_resultado (cid : Z) (db : Banco) :
  (exists x, deletar_cliente cid db = (Raise x, db))
  \/ (In cid (map Cliente.id (clientes db)) /\ pedidos_de cid db = []
      /\ deletar_cliente cid db
         = (Ok tt, mkBanco (filter (fun r => negb (Z.eqb (Cliente.id r) cid))
                                   (clientes db))
                           (pedidos db))).
Proof.
  destruct (obter_por_id_casos cid db) as [[c [Hc [Hin Hid]]]|[_ Hc]].
  2:{ left. eexists. unfold deletar_cliente, bind. now rewrite Hc. }
  unfold deletar_cliente, bind. rewrite Hc, rel_pedidos_eq, Hid.
  destruct (pedidos_de cid db) as [|p ps] eqn:P; simpl.
  - right. split; [|split; [reflexivity|]].
    + rewrite <- Hid. now apply in_map.
    + unfold db_delete_commit. now rewrite Hid.
  - left. eexists. reflexivity.
Qed.

(** ** Errors *)

(** X1.  A call of Create, Update, UpdateEmail or Delete that raises leaves
    the store exactly as it found it. *)
Theorem falha_nao_altera_banco (db db' : Banco) (x : Excecao) :
  (forall agora d, criar_cliente agora d db = (Raise x, db') -> db' = db)
  /\ (forall cid u, atualizar_cliente cid u db = (Raise x, db') -> db' = db)
  /\ (forall cid e, atualizar_email cid e db = (Raise x, db') -> db' = db)
  /\ (forall cid, deletar_cliente cid db = (Raise x, db') -> db' = db).
Proof.
  split; [|split; [|split]].
  - intros agora d H.
    destruct (criar_cliente_casos agora d db) as [[y Hy]|[_ Hy]];
      rewrite Hy in H; [congruence | discriminate].
  - intros cid u H.
    destruct (atualizar_cliente_casos cid u db) as [[y Hy]|[c [n [e [_ [_ [_ [_ Hy]]]]]]]];
      rewrite Hy in H; [congruence | discriminate].
  - intros cid e H.
    destruct (obter_por_id_casos cid db) as [[c [Hc _]]|[_ Hc]].
    + destruct (atualizar_email_desdobra cid e db c Hc) as [[_ [_ Hy]]|[_ Hy]];
        rewrite Hy in H; [congruence | discriminate].
    + unfold atualizar_email, bind in H. rewrite Hc in H. congruence.
  - intros cid H.
    destruct (deletar_cliente_resultado cid db) as [[y Hy]|[_ [_ Hy]]];
      rewrite Hy in H; [congruence | discriminate].
Qed.

Lemma falha_nao_altera_banco_witness :
  snd (criar_cliente 1700000200 ana_cnpj_de_maria banco_dois) = banco_dois
  /\ snd (deletar_cliente 1 banco_com_pedido) = banco_com_pedido.
Proof.
  split.
  - apply (proj1 (falha_nao_altera_banco banco_dois
                    (snd (criar_cliente 1700000200 ana_cnpj_de_maria banco_dois))
                    IntegrityError) 1700000200 ana_cnpj_de_maria).
    vm_compute. reflexivity.
  - apply (proj2 (proj2 (proj2 (falha_nao_altera_banco banco_com_pedido
                    (snd (deletar_cliente 1 banco_com_pedido))
                    (HTTPException 400 (ClienteComPedidos 1))))) 1).
    vm_compute. reflexivity.
Defined.

(** X2.  Create ends in the store's [IntegrityError] exactly when the cpf
    and the email of the input are both unused and its cnpj is one a stored
    customer already has. *)
Theorem criar_cliente_integrity_error (agora : Z) (d : ClienteCreate.t) (db : Banco) :
  fst (criar_cliente agora d db) = Raise IntegrityError
  <-> (~ In (ClienteCreate.cpf d) (map Cliente.cpf (clientes db))
       /\ ~ In (ClienteCreate.email d) (map Cliente.email (clientes db))
       /\ exists x, ClienteCreate.cnpj d = Some x
                    /\ In (Some x) (map Cliente.cnpj (clientes db))).
Proof.
  split.
  - intro H.
    destruct (in_dec string_dec (ClienteCreate.cpf d) (map Cliente.cpf (clientes db)))
      as [Hc|Hc].
    { rewrite criar_cliente_cpf_usado in H by assumption. discriminate H. }
    destruct (in_dec string_dec (ClienteCreate.email d)
                     (map Cliente.email (clientes db))) as [He|He].
    { rewrite criar_cliente_email_usado in H by assumption. discriminate H. }
    split; [exact Hc | split; [exact He|]].
    rewrite criar_cliente_validado in H by assumption.
    unfold db_add_commit_refresh in H.
    destruct (viola_unique (clientes db) d) eqn:V; [|discriminate H].
    unfold viola_unique in V.
    apply existsb_col_false in Hc, He. rewrite Hc, He in V. simpl in V.
    destruct (ClienteCreate.cnpj d) as [y|]; [|discriminate V].
    exists y. split; [reflexivity | now apply existsb_cnpj].
  - intros [Hc [He [y [Hy Hin]]]].
    rewrite criar_cliente_validado by assumption.
    unfold db_add_commit_refresh.
    assert (V : viola_unique (clientes db) d = true).
    { unfold viola_unique. rewrite Hy.
      apply existsb_cnpj in Hin. rewrite Hin. apply orb_true_r. }
    now rewrite V.
Qed.

(** X3.  UpdateEmail has three outcomes and no other: not-found (404) when
    no customer has the id; the duplicate-email error (400) when the new
    email differs from the customer's and a stored customer holds it; success
    otherwise, with only the email replaced.  It never ends in
    [IntegrityError], whatever string it is given. *)
Theorem atualizar_email_tres_casos (cid : Z) (e : string) (db : Banco) :
  ((~ In cid (map Cliente.id (clientes db))
    /\ atualizar_email cid e db
       = (Raise (HTTPException 404 (ClienteIdNaoEncontrado cid)), db))
   \/ (exists c, obter_cliente_por_id cid db = (Ok c, db)
                 /\ e <> Cliente.email c
                 /\ In e (map Cliente.email (clientes db))
                 /\ atualizar_email cid e db
                    = (Raise (HTTPException 400 (EmailJaCadastrado e)), db))
   \/ (exists c, obter_cliente_por_id cid db = (Ok c, db)
                 /\ (e = Cliente.email c \/ ~ In e (map Cliente.email (clientes db)))
                 /\ atualizar_email cid e db
                    = (Ok (com_email c e),
                       banco_atualizado db c (Cliente.nome c) e (so_email e))))
  /\ fst (atualizar_email cid e db) <> Raise IntegrityError.
Proof.
  destruct (obter_por_id_casos cid db) as [[c [Hc _]]|[Hn Hc]].
  - destruct (atualizar_email_desdobra cid e db c Hc) as [[H1 [H2 H]]|[H1 H]].
    + split; [|rewrite H; discriminate].
      right. left. exists c. repeat split; trivial.
    + split; [|rewrite H; discriminate].
      right. right. exists c. repeat split; trivial.
  - assert (H : atualizar_email cid e db
                = (Raise (HTTPException 404 (ClienteIdNaoEncontrado cid)), db)).
    { unfold atualizar_email, bind. now rewrite Hc. }
    split; [|rewrite H; discriminate].
    left. split; trivial.
Qed.

(** X4.  An Update whose input sets neither name nor email to null and does
    not carry the empty string as email never ends in [IntegrityError]: the
    uniqueness check of the service runs before the store can object. *)
Theorem atualizar_cliente_sem_integrity_error
        (cid : Z) (u : ClienteUpdate.t) (db : Banco) :
  ClienteUpdate.nome u <> Some None ->
  ClienteUpdate.email u <> Some None ->
  ClienteUpdate.email u <> Some (Some "") ->
  fst (atualizar_cliente cid u db) <> Raise IntegrityError.
Proof.
  intros Hn He Hv.
  destruct (obter_por_id_casos cid db) as [[c [Hc _]]|[_ Hc]].
  2:{ unfold atualizar_cliente, bind. rewrite Hc. discriminate. }
  destruct (atualizar_cliente_desdobra cid u db c Hc) as [[e0 [_ [_ [_ [_ H]]]]]|[Hg H]];
    rewrite H; [discriminate|].
  unfold db_setattr_commit_refresh.
  destruct (ClienteUpdate.nome u) as [[n|]|]; try congruence; simpl;
    destruct (ClienteUpdate.email u) as [[e|]|] eqn:E; try congruence; simpl;
    try (rewrite String.eqb_refl; simpl; discriminate).
  - assert (G : ClienteUpdate.get_email u = Some e)
      by (unfold ClienteUpdate.get_email; now rewrite E).
    destruct (Hg e G) as [H0|[H0|H0]].
    + congruence.
    + rewrite H0, String.eqb_refl. simpl. discriminate.
    + apply existsb_col_false in H0. rewrite H0, andb_false_r. discriminate.
  - assert (G : ClienteUpdate.get_email u = Some e)
      by (unfold ClienteUpdate.get_email; now rewrite E).
    destruct (Hg e G) as [H0|[H0|H0]].
    + congruence.
    + rewrite H0, String.eqb_refl. simpl. discriminate.
    + apply existsb_col_false in H0. rewrite H0, andb_false_r. discriminate.
Qed.

Lemma atualizar_cliente_sem_integrity_error_witness :
  fst (atualizar_cliente 2 (so_email "maria@example.com") banco_dois)
  <> Raise IntegrityError.
Proof.
  apply (atualizar_cliente_sem_integrity_error 2 (so_email "maria@example.com")
           banco_dois); discriminate.
Defined.

(** ** Lookups *)

Lemma find_col_primeiro {A : Type} (f : A -> string) (l : list A) (c : A) :
  NoDup (map f l) -> In c l ->
  find (fun r => String.eqb (f r) (f c)) l = Some c.
Proof.
  induction l as [|a l IH]; simpl; intros Hnd Hin; [contradiction|].
  inversion Hnd as [|b bs Hna Hnd']; subst.
  destruct (String.eqb_spec (f a) (f c)) as [E|E].
  - destruct Hin as [->|Hin]; [reflexivity|].
    exfalso. apply Hna. rewrite E. now apply in_map.
  - destruct Hin as [->|Hin]; [congruence | now apply IH].
Qed.

Lemma find_id_primeiro (l : list Cliente.t) (c : Cliente.t) :
  NoDup (map Cliente.id l) -> In c l ->
  find (fun r => Z.eqb (Cliente.id r) (Cliente.id c)) l = Some c.
Proof.
  induction l as [|a l IH]; simpl; intros Hnd Hin; [contradiction|].
  inversion Hnd as [|b bs Hna Hnd']; subst.
  destruct (Z.eqb_spec (Cliente.id a) (Cliente.id c)) as [E|E].
  - destruct Hin as [->|Hin]; [reflexivity|].
    exfalso. apply Hna. rewrite E. now apply in_map.
  - destruct Hin as [->|Hin]; [congruence | now apply IH].
Qed.

Lemma obter_por_cpf_ok (cpf : string) (db : Banco) (c : Cliente.t) :
  find (fun r => String.eqb (Cliente.cpf r) cpf) (clientes db) = Some c ->
  obter_cliente_por_cpf cpf db = (Ok c, db).
Proof.
  intro H. unfold obter_cliente_por_cpf, bind, query_first. now rewrite H.
Qed.

(** X5.  Lookup by cpf: with no stored customer holding the cpf it fails
    with not-found (404) naming the cpf; otherwise it returns a stored
    customer with that cpf; and in a store whose cpfs are pairwise distinct
    every stored customer is the one returned for its own cpf.  The store is
    never changed. *)
Theorem obter_cliente_por_cpf_casos (cpf : string) (db : Banco) :
  (~ In cpf (map Cliente.cpf (clientes db)) ->
   obter_cliente_por_cpf cpf db
   = (Raise (HTTPException 404 (ClienteCpfNaoEncontrado cpf)), db))
  /\ (In cpf (map Cliente.cpf (clientes db)) ->
      exists c, obter_cliente_por_cpf cpf db = (Ok c, db)
                /\ In c (clientes db) /\ Cliente.cpf c = cpf)
  /\ (forall c, NoDup (map Cliente.cpf (clientes db)) -> In c (clientes db) ->
                Cliente.cpf c = cpf ->
                obter_cliente_por_cpf cpf db = (Ok c, db)).
Proof.
  split; [|split].
  - intro H. unfold obter_cliente_por_cpf, bind, query_first.
    now rewrite (find_col_none _ _ _ H).
  - intro H. destruct (find_col_some _ _ _ H) as [c Hc].
    exists c. split; [now apply obter_por_cpf_ok|].
    destruct (find_some _ _ Hc) as [Hin Hcpf].
    split; [exact Hin | now apply String.eqb_eq].
  - intros c Hnd Hin <-. apply obter_por_cpf_ok.
    now apply (find_col_primeiro Cliente.cpf).
Qed.

Lemma obter_cliente_por_cpf_casos_witness :
  obter_cliente_por_cpf "00000000000" banco_dois
  = (Raise (HTTPException 404 (ClienteCpfNaoEncontrado "00000000000")), banco_dois)
  /\ (exists c, obter_cliente_por_cpf "98765432100" banco_dois = (Ok c, banco_dois)
                /\ In c (clientes banco_dois) /\ Cliente.cpf c = "98765432100").
Proof.
  split.
  - apply (proj1 (obter_cliente_por_cpf_casos "00000000000" banco_dois)).
    apply existsb_col_false. vm_compute. reflexivity.
  - apply (proj1 (proj2 (obter_cliente_por_cpf_casos "98765432100" banco_dois))).
    apply existsb_col. vm_compute. reflexivity.
Defined.

(** X6.  In every store reached from the empty one by Create, Update,
    UpdateEmail and Delete calls, each stored customer is the record
    returned by the lookup on its own id and by the lookup on its own cpf. *)
Theorem alcancavel_encontra (db : Banco) (c : Cliente.t) :
  alcancavel db -> In c (clientes db) ->
  obter_cliente_por_id (Cliente.id c) db = (Ok c, db)
  /\ obter_cliente_por_cpf (Cliente.cpf c) db = (Ok c, db).
Proof.
  intros Ha Hin. destruct (alcancavel_integro db Ha) as [Hid [_ Hcpf]].
  split.
  - apply obter_por_id_ok. now apply find_id_primeiro.
  - apply obter_por_cpf_ok. now apply (find_col_primeiro Cliente.cpf).
Qed.

Lemma alcancavel_encontra_witness :
  obter_cliente_por_id 2 banco_dois = (Ok linha_joao, banco_dois)
  /\ obter_cliente_por_cpf "98765432100" banco_dois = (Ok linha_joao, banco_dois).
Proof.
  apply (alcancavel_encontra banco_dois linha_joao).
  - unfold banco_dois. apply alc_criar, alc_criar, alc_vazio.
  - vm_compute. right. left. reflexivity.
Defined.

(** X7.  After a Create that succeeds, the lookup on the input's cpf returns
    the record Create returned. *)
Theorem criar_depois_obter_por_cpf
        (agora : Z) (d : ClienteCreate.t) (db db' : Banco) (c : Cliente.t) :
  criar_cliente agora d db = (Ok c, db') ->
  obter_cliente_por_cpf (ClienteCreate.cpf d) db' = (Ok c, db').
Proof.
  intro H.
  destruct (criar_cliente_casos agora d db) as [[y Hy]|[V Hy]];
    rewrite Hy in H; [discriminate|].
  injection H as <- <-. apply viola_unique_false in V. destruct V as [_ [Hc _]].
  apply obter_por_cpf_ok. simpl. apply find_snoc.
  - now apply find_col_none.
  - simpl. apply String.eqb_refl.
Qed.

Lemma criar_depois_obter_por_cpf_witness :
  obter_cliente_por_cpf "11111111111"
    (snd (criar_cliente 1700000200 ana banco_dois))
  = (Ok (Cliente_novo 3 1700000200 ana),
     snd (criar_cliente 1700000200 ana banco_dois)).
Proof.
  apply (criar_depois_obter_por_cpf 1700000200 ana banco_dois).
  vm_compute. reflexivity.
Defined.

(** ** Orders of a customer *)

(** X8.  Listing a customer's orders fails with not-found (404) when no
    customer has the id; otherwise it returns, in store order, exactly the
    orders whose customer reference is that id, and leaves the store as it
    is. *)
Theorem listar_pedidos_do_cliente_casos (cid : Z) (db : Banco) :
  (~ In cid (map Cliente.id (clientes db)) ->
   listar_pedidos_do_cliente cid db
   = (Raise (HTTPException 404 (ClienteIdNaoEncontrado cid)), db))
  /\ (In cid (map Cliente.id (clientes db)) ->
      exists ps, listar_pedidos_do_cliente cid db = (Ok ps, db)
                 /\ (forall p, In p ps <->
                               In p (pedidos db) /\ Pedido.cliente_id p = cid)).
Proof.
  split.
  - intro H. unfold listar_pedidos_do_cliente, bind.
    now rewrite (obter_por_id_ausente _ _ H).
  - intro H. destruct (obter_por_id_presente _ _ H) as [c [Hc [_ Hid]]].
    exists (pedidos_de cid db). split.
    + unfold listar_pedidos_do_cliente, bind. now rewrite Hc, rel_pedidos_eq, Hid.
    + intro p. unfold pedidos_de. rewrite filter_In, Z.eqb_eq. tauto.
Qed.

Lemma listar_pedidos_do_cliente_casos_witness :
  listar_pedidos_do_cliente 9 banco_com_pedido
  = (Raise (HTTPException 404 (ClienteIdNaoEncontrado 9)), banco_com_pedido)
  /\ exists ps, listar_pedidos_do_cliente 1 banco_com_pedido
                = (Ok ps, banco_com_pedido)
                /\ (forall p, In p ps <->
                       In p (pedidos banco_com_pedido) /\ Pedido.cliente_id p = 1).
Proof.
  split.
  - apply (proj1 (listar_pedidos_do_cliente_casos 9 banco_com_pedido)).
    vm_compute. intros [H|[H|[]]]; discriminate H.
  - apply (proj2 (listar_pedidos_do_cliente_casos 1 banco_com_pedido)).
    vm_compute. left. reflexivity.
Defined.

(** X9.  Delete succeeds exactly when listing the customer's orders
    succeeds with the empty list. *)
Theorem deletar_sse_sem_pedidos (cid : Z) (db : Banco) :
  (exists db', deletar_cliente cid db = (Ok tt, db'))
  <-> listar_pedidos_do_cliente cid db = (Ok [], db).
Proof.
  unfold deletar_cliente, listar_pedidos_do_cliente, bind.
  destruct (obter_por_id_casos cid db) as [[c [Hc _]]|[_ Hc]]; rewrite Hc.
  - rewrite rel_pedidos_eq.
    destruct (pedidos_de (Cliente.id c) db) as [|p ps]; simpl.
    + split; [reflexivity | intros _; eexists; reflexivity].
    + split; [intros [db' H]; discriminate H | intro H; discriminate H].
  - split; [intros [db' H]; discriminate H | intro H; discriminate H].
Qed.

(** ** Listing and counting *)

Lemma firstn_soma {A : Type} (a b : nat) (l : list A) :
  firstn (a + b) l = (firstn a l ++ firstn b (skipn a l))%list.
Proof.
  revert l. induction a as [|a IH]; intro l; simpl; [reflexivity|].
  destruct l as [|x l]; simpl.
  - now rewrite firstn_nil.
  - now rewrite IH.
Qed.

Lemma pagina_contida (limit skip : nat) (cs : list Cliente.t) (c : Cliente.t) :
  In c (firstn limit (skipn skip cs)) -> In c cs.
Proof.
  intro H.
  rewrite <- (firstn_skipn skip cs). apply in_or_app. right.
  rewrite <- (firstn_skipn limit (skipn skip cs)). apply in_or_app. now left.
Qed.

(** X10.  Listing never fails and never changes the store.  The page holds
    [min limit (count - skip)] customers, all of them stored; it is empty
    when [skip] reaches the number of customers, and it is the whole table
    when [skip] is 0 and [limit] is at least the number of customers. *)
Theorem listar_clientes_pagina (skip limit : nat) (db : Banco) :
  exists l,
    listar_clientes skip limit db = (Ok l, db)
    /\ List.length l = Nat.min limit (List.length (clientes db) - skip)
    /\ (forall c, In c l -> In c (clientes db))
    /\ ((List.length (clientes db) <= skip)%nat -> l = [])
    /\ (skip = 0%nat -> (List.length (clientes db) <= limit)%nat ->
        l = clientes db).
Proof.
  exists (firstn limit (skipn skip (clientes db))).
  split; [reflexivity|]. split; [|split; [|split]].
  - now rewrite length_firstn, length_skipn.
  - intros c Hc. now apply (pagina_contida limit skip).
  - intro H. rewrite (skipn_all2 _ H). apply firstn_nil.
  - intros -> H. simpl. now apply firstn_all2.
Qed.

(** X11.  Consecutive pages tile the table: the page of [a + b] customers
    after [skip] is the page of [a] after [skip] followed by the page of [b]
    after [skip + a]. *)
Theorem listar_clientes_paginas_seguidas (skip a b : nat) (db : Banco) :
  exists l1 l2,
    listar_clientes skip a db = (Ok l1, db)
    /\ listar_clientes (skip + a) b db = (Ok l2, db)
    /\ listar_clientes skip (a + b) db = (Ok (l1 ++ l2)%list, db).
Proof.
  exists (firstn a (skipn skip (clientes db))).
  exists (firstn b (skipn (skip + a) (clientes db))).
  split; [reflexivity|]. split; [reflexivity|].
  unfold listar_clientes. rewrite firstn_soma, skipn_skipn.
  now rewrite (Nat.add_comm a skip).
Qed.

Lemma snd_chamar (ch : Chamada) (db : Banco) :
  snd (chamar ch db)
  = match ch with
    | ChCriar agora d => snd (criar_cliente agora d db)
    | ChAtualizar cid u => snd (atualizar_cliente cid u db)
    | ChEmail cid e => snd (atualizar_email cid e db)
    | ChDeletar cid => snd (deletar_cliente cid db)
    end.
Proof.
  destruct ch; simpl; unfold bind; try reflexivity;
    match goal with |- context [?m db] => destruct (m db) as [[a|x] db'] end;
    reflexivity.
Qed.

Lemma integro_chamar (ch : Chamada) (db : Banco) :
  integro db -> integro (snd (chamar ch db)).
Proof.
  intro H. rewrite snd_chamar. destruct ch.
  - now apply integro_criar.
  - now apply integro_atualizar.
  - now apply integro_email.
  - now apply integro_deletar.
Qed.

Lemma length_banco_atualizado (db : Banco) (c : Cliente.t) (n e : string)
      (u : ClienteUpdate.t) :
  List.length (clientes (banco_atualizado db c n e u)) = List.length (clientes db).
Proof. simpl. apply length_map. Qed.

(** How one call moves the number of customers. *)
Lemma chamar_contagem (ch : Chamada) (db : Banco) :
  integro db ->
  match fst (chamar ch db), ch with
  | Ok _, ChCriar _ _ =>
      List.length (clientes (snd (chamar ch db))) = S (List.length (clientes db))
  | Ok _, ChDeletar _ =>
      S (List.length (clientes (snd (chamar ch db)))) = List.length (clientes db)
  | _, _ =>
      List.length (clientes (snd (chamar ch db))) = List.length (clientes db)
  end.
Proof.
  intros [Hid _]. destruct ch as [agora d|cid u|cid e|cid]; simpl; unfold bind.
  - destruct (criar_cliente_casos agora d db) as [[y Hy]|[_ Hy]]; rewrite Hy; simpl;
      [reflexivity|].
    rewrite length_app. simpl. apply Nat.add_1_r.
  - destruct (atualizar_cliente_casos cid u db)
      as [[y Hy]|[c [n [e [_ [_ [_ [_ Hy]]]]]]]]; rewrite Hy; simpl;
      [reflexivity | apply length_map].
  - destruct (obter_por_id_casos cid db) as [[c [Hc _]]|[_ Hc]].
    + destruct (atualizar_email_desdobra cid e db c Hc) as [[_ [_ Hy]]|[_ Hy]];
        rewrite Hy; simpl; [reflexivity | apply length_map].
    + unfold atualizar_email, bind. rewrite Hc. reflexivity.
  - destruct (deletar_cliente_resultado cid db) as [[y Hy]|[Hin [_ Hy]]];
      rewrite Hy; simpl; [reflexivity|].
    now apply filtro_remove_um.
Qed.

(** X12.  Along any sequence of Create, Update, UpdateEmail and Delete
    calls started on a store that meets the key constraints, the count of
    customers at the end, plus the number of Deletes that succeeded, is the
    count at the start plus the number of Creates that succeeded; started on
    the empty store, the count is created minus deleted. *)
Theorem contagem_apos_chamadas (chs : list Chamada) (db : Banco) :
  integro db ->
  let '(criados, deletados, final) := executar chs db in
  exists n, contar_clientes final = (Ok n, final)
            /\ (n + deletados = List.length (clientes db) + criados)%nat.
Proof.
  revert db. induction chs as [|ch chs IH]; intros db Hint; simpl.
  - exists (List.length (clientes db)). split; [reflexivity | lia].
  - pose proof (chamar_contagem ch db Hint) as Hc.
    pose proof (integro_chamar ch db Hint) as Hint'.
    destruct (chamar ch db) as [r db'] eqn:R. simpl in Hc, Hint'.
    specialize (IH db' Hint').
    destruct (executar chs db') as [[criados deletados] final].
    destruct IH as [n [Hn Heq]].
    destruct r as [[]|x]; destruct ch; exists n; (split; [exact Hn | lia]).
Qed.

Lemma contagem_apos_chamadas_witness :
  exists n,
    contar_clientes
      (snd (executar [ChCriar 1700000200 ana; ChDeletar 1; ChDeletar 1;
                      ChEmail 2 "j@example.com"] banco_dois))
    = (Ok n, snd (executar [ChCriar 1700000200 ana; ChDeletar 1; ChDeletar 1;
                            ChEmail 2 "j@example.com"] banco_dois))
    /\ (n + 1 = 2 + 1)%nat.
Proof.
  assert (Hint : integro banco_dois).
  { apply alcancavel_integro. unfold banco_dois.
    apply alc_criar, alc_criar, alc_vazio. }
  pose proof (contagem_apos_chamadas
                [ChCriar 1700000200 ana; ChDeletar 1; ChDeletar 1;
                 ChEmail 2 "j@example.com"] banco_dois Hint) as H.
  vm_compute in H. vm_compute. exact H.
Defined.

(** X13.  Deleting the customer a Create has just returned brings the store
    back to what it was before the Create (no order refers to the new id). *)
Theorem criar_depois_deletar
        (agora : Z) (d : ClienteCreate.t) (db db' : Banco) (c : Cliente.t) :
  criar_cliente agora d db = (Ok c, db') ->
  pedidos_de (Cliente.id c) db = [] ->
  deletar_cliente (Cliente.id c) db' = (Ok tt, db).
Proof.
  intros H Hp.
  destruct (criar_cliente_casos agora d db) as [[y Hy]|[_ Hy]];
    rewrite Hy in H; [discriminate|].
  injection H as <- <-. simpl in Hp. simpl.
  set (c := Cliente_novo (proximo_id (clientes db)) agora d).
  set (db' := mkBanco (clientes db ++ [c]) (pedidos db)).
  assert (Hc : obter_cliente_por_id (proximo_id (clientes db)) db' = (Ok c, db')).
  { apply obter_por_id_ok. simpl. apply find_snoc.
    - apply find_id_none, proximo_id_novo.
    - apply Z.eqb_refl. }
  unfold deletar_cliente, bind. rewrite Hc, rel_pedidos_eq.
  change (pedidos_de (Cliente.id c) db') with (pedidos_de (proximo_id (clientes db)) db).
  rewrite Hp. simpl. unfold db_delete_commit. simpl.
  rewrite filter_app. simpl. rewrite Z.eqb_refl. simpl.
  rewrite app_nil_r, filtro_sem_efeito by apply proximo_id_novo.
  destruct db; reflexivity.
Qed.

Lemma criar_depois_deletar_witness :
  deletar_cliente 3 (snd (criar_cliente 1700000200 ana banco_dois))
  = (Ok tt, banco_dois).
Proof.
  apply (criar_depois_deletar 1700000200 ana banco_dois
           (snd (criar_cliente 1700000200 ana banco_dois))
           (Cliente_novo 3 1700000200 ana)).
  - vm_compute. reflexivity.
  - reflexivity.
Defined.

(** ** Update, once more *)

Lemma coluna_nn_fixo {A : Type} (x : option (option A)) (a n : A) :
  coluna_nn x a = Some n -> coluna_nn x n = Some n.
Proof. destruct x as [v|]; simpl; [trivial | reflexivity]. Qed.

Lemma atribuir_duas_vezes (r : Cliente.t) (n e : string) (u : ClienteUpdate.t) :
  atribuir (atribuir r n e u) n e u = atribuir r n e u.
Proof.
  unfold atribuir, coluna. simpl.
  destruct (ClienteUpdate.idade u), (ClienteUpdate.endereco u),
    (ClienteUpdate.telefone u); reflexivity.
Qed.

(** X14.  Update is idempotent: repeating an Update that succeeded, on the
    store it left, succeeds again, returns the same record and leaves the
    same store. *)
Theorem atualizar_cliente_idempotente
        (cid : Z) (u : ClienteUpdate.t) (db db' : Banco) (c' : Cliente.t) :
  atualizar_cliente cid u db = (Ok c', db') ->
  atualizar_cliente cid u db' = (Ok c', db').
Proof.
  intro H.
  destruct (atualizar_cliente_casos cid u db)
    as [[y Hy]|[c [n [e [Hc [Hn [He [_ Hy]]]]]]]]; rewrite Hy in H;
    [discriminate|].
  injection H as <- <-.
  pose proof (obter_apos_update cid db c n e u Hc) as Hc'.
  rewrite (atualizar_cliente_ok cid u _ (atribuir c n e u) n e Hc').
  - rewrite atribuir_duas_vezes. f_equal.
    unfold banco_atualizado. simpl. f_equal.
    rewrite map_map. apply map_ext. intro r.
    destruct (Z.eqb (Cliente.id r) (Cliente.id c)) eqn:E; simpl; rewrite E;
      [apply atribuir_duas_vezes | reflexivity].
  - simpl. now apply (coluna_nn_fixo _ (Cliente.nome c)).
  - simpl. now apply (coluna_nn_fixo _ (Cliente.email c)).
  - now left.
Qed.

Lemma atualizar_cliente_idempotente_witness :
  atualizar_cliente 2 atualizacao_joao
    (snd (atualizar_cliente 2 atualizacao_joao banco_dois))
  = (Ok (atribuir linha_joao "Joao Souza" "joao@example.com" atualizacao_joao),
     snd (atualizar_cliente 2 atualizacao_joao banco_dois)).
Proof.
  apply (atualizar_cliente_idempotente 2 atualizacao_joao banco_dois).
  vm_compute. reflexivity.
Defined.

Lemma atribuir_vazio (c : Cliente.t) :
  atribuir c (Cliente.nome c) (Cliente.email c) ClienteUpdate.vazio = c.
Proof. destruct c; reflexivity. Qed.

(** X15.  Under the primary key, an Update whose input sets no field
    succeeds, returns the customer as stored and leaves the store as it
    was. *)
Theorem atualizar_cliente_vazio (cid : Z) (db : Banco) (c : Cliente.t) :
  NoDup (map Cliente.id (clientes db)) ->
  obter_cliente_por_id cid db = (Ok c, db) ->
  atualizar_cliente cid ClienteUpdate.vazio db = (Ok c, db).
Proof.
  intros Hnd Hc.
  rewrite (atualizar_cliente_ok cid ClienteUpdate.vazio db c
             (Cliente.nome c) (Cliente.email c) Hc eq_refl eq_refl (or_introl eq_refl)).
  rewrite atribuir_vazio. f_equal.
  assert (Hin : In c (clientes db)).
  { apply obter_por_id_ok in Hc. now apply find_id_some in Hc. }
  unfold banco_atualizado.
  replace (map _ (clientes db)) with (clientes db); [destruct db; reflexivity|].
  rewrite <- (map_id (clientes db)) at 1. apply map_ext_in. intros r Hr.
  destruct (Z.eqb_spec (Cliente.id r) (Cliente.id c)) as [E|E]; [|reflexivity].
  rewrite (nodup_col_inj Cliente.id (clientes db) r c Hnd Hr Hin E).
  symmetry. apply atribuir_vazio.
Qed.

Lemma atualizar_cliente_vazio_witness :
  atualizar_cliente 1 ClienteUpdate.vazio banco_dois = (Ok linha_maria, banco_dois).
Proof.
  apply (atualizar_cliente_vazio 1 banco_dois linha_maria).
  - vm_compute. constructor.
    + intros [H|[]]. discriminate H.
    + constructor; [intros [] | constructor].
  - vm_compute. reflexivity.
Defined.

Lemma fst_obter_por_id (cid : Z) (db : Banco) :
  fst (obter_cliente_por_id cid db)
  = match find (fun r => Z.eqb (Cliente.id r) cid) (clientes db) with
    | Some c => Ok c
    | None => Raise (HTTPException HTTP_404_NOT_FOUND (ClienteIdNaoEncontrado cid))
    end.
Proof.
  unfold obter_cliente_por_id, bind, query_first.
  destruct (find _ (clientes db)); reflexivity.
Qed.

Lemma find_outro_update (cid outro : Z) (g : Cliente.t -> Cliente.t)
      (l : list Cliente.t) :
  outro <> cid ->
  (forall r, Cliente.id (g r) = Cliente.id r) ->
  find (fun r => Z.eqb (Cliente.id r) outro)
       (map (fun r => if Z.eqb (Cliente.id r) cid then g r else r) l)
  = find (fun r => Z.eqb (Cliente.id r) outro) l.
Proof.
  intros Hne Hg. induction l as [|a l IH]; simpl; [reflexivity|].
  destruct (Z.eqb_spec (Cliente.id a) cid) as [E|E].
  - rewrite Hg.
    destruct (Z.eqb_spec (Cliente.id a) outro) as [E'|E']; [congruence | exact IH].
  - destruct (Z.eqb (Cliente.id a) outro); [reflexivity | exact IH].
Qed.

Lemma find_outro_delete (cid outro : Z) (l : list Cliente.t) :
  outro <> cid ->
  find (fun r => Z.eqb (Cliente.id r) outro)
       (filter (fun r => negb (Z.eqb (Cliente.id r) cid)) l)
  = find (fun r => Z.eqb (Cliente.id r) outro) l.
Proof.
  intros Hne. induction l as [|a l IH]; simpl; [reflexivity|].
  destruct (Z.eqb_spec (Cliente.id a) cid) as [E|E]; simpl.
  - destruct (Z.eqb_spec (Cliente.id a) outro) as [E'|E']; [congruence | exact IH].
  - destruct (Z.eqb (Cliente.id a) outro); [reflexivity | exact IH].
Qed.

Lemma find_app_presente {A : Type} (p : A -> bool) (l l' : list A) (x : A) :
  find p l = Some x -> find p (l ++ l') = Some x.
Proof.
  induction l as [|a l IH]; simpl; [discriminate|].
  destruct (p a); [trivial | exact IH].
Qed.

(** X16.  A call about one customer does not change what the lookup by id
    returns for any other id: Update, UpdateEmail and Delete on [cid] leave
    the lookup of every [outro <> cid] as it was, and Create leaves the
    lookup of every id already stored as it was. *)
Theorem consulta_de_outro_preservada (db : Banco) (cid outro : Z) :
  (outro <> cid ->
   (forall u, fst (obter_cliente_por_id outro (snd (atualizar_cliente cid u db)))
              = fst (obter_cliente_por_id outro db))
   /\ (forall e, fst (obter_cliente_por_id outro (snd (atualizar_email cid e db)))
                 = fst (obter_cliente_por_id outro db))
   /\ fst (obter_cliente_por_id outro (snd (deletar_cliente cid db)))
      = fst (obter_cliente_por_id outro db))
  /\ (In outro (map Cliente.id (clientes db)) ->
      forall agora d,
        fst (obter_cliente_por_id outro (snd (criar_cliente agora d db)))
        = fst (obter_cliente_por_id outro db)).
Proof.
  split.
  - intro Hne. split; [|split].
    + intro u.
      destruct (atualizar_cliente_casos cid u db)
        as [[y Hy]|[c [n [e [Hc [_ [_ [_ Hy]]]]]]]]; rewrite Hy; [reflexivity|].
      rewrite !fst_obter_por_id. simpl.
      apply obter_por_id_ok in Hc. apply find_id_some in Hc. destruct Hc as [_ ->].
      now rewrite (find_outro_update cid outro (fun r => atribuir r n e u)).
    + intro e.
      destruct (obter_por_id_casos cid db) as [[c [Hc [_ Hid]]]|[_ Hc]].
      * destruct (atualizar_email_desdobra cid e db c Hc) as [[_ [_ Hy]]|[_ Hy]];
          rewrite Hy; [reflexivity|].
        rewrite !fst_obter_por_id. simpl. rewrite Hid.
        now rewrite (find_outro_update cid outro
                       (fun r => atribuir r (Cliente.nome c) e (so_email e))).
      * unfold atualizar_email, bind. rewrite Hc. reflexivity.
    + destruct (deletar_cliente_resultado cid db) as [[y Hy]|[_ [_ Hy]]];
        rewrite Hy; [reflexivity|].
      rewrite !fst_obter_por_id. simpl. now rewrite find_outro_delete.
  - intros Hin agora d.
    destruct (criar_cliente_casos agora d db) as [[y Hy]|[_ Hy]];
      rewrite Hy; [reflexivity|].
    rewrite !fst_obter_por_id. simpl.
    destruct (find_id_in _ _ Hin) as [c Hc].
    now rewrite (find_app_presente _ _ _ _ Hc), Hc.
Qed.

Lemma consulta_de_outro_preservada_witness :
  fst (obter_cliente_por_id 2 (snd (deletar_cliente 1 banco_dois)))
  = fst (obter_cliente_por_id 2 banco_dois)
  /\ fst (obter_cliente_por_id 2 (snd (criar_cliente 1700000200 ana banco_dois)))
     = fst (obter_cliente_por_id 2 banco_dois).
Proof.
  split.
  - apply (proj1 (consulta_de_outro_preservada banco_dois 1 2)). discriminate.
  - apply (proj2 (consulta_de_outro_preservada banco_dois 1 2)).
    vm_compute. right. left. reflexivity.
Defined.

(** ** Keys taken and keys released *)

(** X17.  After a Create that succeeded, its cpf and its email are taken:
    any later Create with the same cpf fails with the duplicate-cpf error,
    and any later Create with an unused cpf and the same email fails with
    the duplicate-email error; the store is left as it was. *)
Theorem criar_de_novo_falha
        (agora : Z) (d : ClienteCreate.t) (db db' : Banco) (c : Cliente.t) :
  criar_cliente agora d db = (Ok c, db') ->
  (forall agora' d',
      ClienteCreate.cpf d' = ClienteCreate.cpf d ->
      criar_cliente agora' d' db'
      = (Raise (HTTPException 400 (CpfJaCadastrado (ClienteCreate.cpf d))), db'))
  /\ (forall agora' d',
         ~ In (ClienteCreate.cpf d') (map Cliente.cpf (clientes db')) ->
         ClienteCreate.email d' = ClienteCreate.email d ->
         criar_cliente agora' d' db'
         = (Raise (HTTPException 400 (EmailJaCadastrado (ClienteCreate.email d))), db')).
Proof.
  intro H.
  destruct (criar_cliente_casos agora d db) as [[y Hy]|[_ Hy]];
    rewrite Hy in H; [discriminate|].
  injection H as <- <-. split.
  - intros agora' d' E. rewrite <- E. apply criar_cliente_cpf_usado.
    simpl. rewrite map_app, in_app_iff. right. simpl. left. now symmetry.
  - intros agora' d' Hc E. rewrite <- E. apply criar_cliente_email_usado; [exact Hc|].
    simpl. rewrite map_app, in_app_iff. right. simpl. left. now symmetry.
Qed.

Lemma criar_de_novo_falha_witness :
  criar_cliente 1700000300 ana (snd (criar_cliente 1700000200 ana banco_dois))
  = (Raise (HTTPException 400 (CpfJaCadastrado "11111111111")),
     snd (criar_cliente 1700000200 ana banco_dois)).
Proof.
  apply (proj1 (criar_de_novo_falha 1700000200 ana banco_dois
                  (snd (criar_cliente 1700000200 ana banco_dois))
                  (Cliente_novo 3 1700000200 ana) eq_refl)).
  reflexivity.
Defined.

Lemma coluna_livre_apos_delete (f : Cliente.t -> string) (l : list Cliente.t)
      (c : Cliente.t) :
  NoDup (map f l) -> In c l ->
  ~ In (f c) (map f (filter (fun r => negb (Z.eqb (Cliente.id r) (Cliente.id c))) l)).
Proof.
  intros Hnd Hin H. apply in_map_iff in H. destruct H as [r [E Hr]].
  apply filter_In in Hr. destruct Hr as [Hr Hid].
  rewrite (nodup_col_inj f l r c Hnd Hr Hin E), Z.eqb_refl in Hid. discriminate.
Qed.

(** X18.  In a store that meets the key constraints, a Delete that
    succeeded releases the customer's cpf and email: no remaining customer
    holds them, and a Create that reuses both (with no cnpj) succeeds. *)
Theorem deletar_libera_chaves
        (cid : Z) (db db' : Banco) (c : Cliente.t) :
  integro db ->
  obter_cliente_por_id cid db = (Ok c, db) ->
  deletar_cliente cid db = (Ok tt, db') ->
  ~ In (Cliente.cpf c) (map Cliente.cpf (clientes db'))
  /\ ~ In (Cliente.email c) (map Cliente.email (clientes db'))
  /\ (forall agora d,
         ClienteCreate.cpf d = Cliente.cpf c ->
         ClienteCreate.email d = Cliente.email c ->
         ClienteCreate.cnpj d = None ->
         exists c2 db2, criar_cliente agora d db' = (Ok c2, db2)).
Proof.
  intros [_ [Hem Hcpf]] Hc H.
  apply obter_por_id_ok in Hc. apply find_id_some in Hc. destruct Hc as [Hin Hid].
  destruct (deletar_cliente_resultado cid db) as [[y Hy]|[_ [_ Hy]]];
    rewrite Hy in H; [discriminate|].
  injection H as <-. simpl. rewrite <- Hid.
  pose proof (coluna_livre_apos_delete Cliente.cpf _ c Hcpf Hin) as F1.
  pose proof (coluna_livre_apos_delete Cliente.email _ c Hem Hin) as F2.
  split; [exact F1 | split; [exact F2|]].
  intros agora d E1 E2 E3.
  rewrite criar_cliente_validado; simpl; [| now rewrite E1 | now rewrite E2].
  unfold db_add_commit_refresh. simpl.
  assert (V : viola_unique
                (filter (fun r => negb (Z.eqb (Cliente.id r) (Cliente.id c)))
                        (clientes db)) d = false).
  { apply viola_unique_false. rewrite E1, E2, E3.
    split; [exact F2 | split; [exact F1 | discriminate]]. }
  rewrite V. eexists. eexists. reflexivity.
Qed.

Lemma deletar_libera_chaves_witness :
  exists c2 db2,
    criar_cliente 1700000400 cpf_e_email_de_joao (snd (deletar_cliente 2 banco_dois))
    = (Ok c2, db2).
Proof.
  assert (Hint : integro banco_dois).
  { apply alcancavel_integro. unfold banco_dois.
    apply alc_criar, alc_criar, alc_vazio. }
  assert (H0 : obter_cliente_por_id 2 banco_dois = (Ok linha_joao, banco_dois))
    by (vm_compute; reflexivity).
  assert (H1 : deletar_cliente 2 banco_dois
               = (Ok tt, snd (deletar_cliente 2 banco_dois)))
    by (vm_compute; reflexivity).
  destruct (deletar_libera_chaves 2 banco_dois _ linha_joao Hint H0 H1)
    as [_ [_ H]].
  apply H; reflexivity.
Defined.

(** ** All key constraints, from any store *)

Lemma cnpjs_app (l l' : list Cliente.t) :
  cnpjs (l ++ l') = (cnpjs l ++ cnpjs l')%list.
Proof. unfold cnpjs. apply flat_map_app. Qed.

Lemma in_cnpjs (x : string) (l : list Cliente.t) :
  In x (cnpjs l) <-> In (Some x) (map Cliente.cnpj l).
Proof.
  induction l as [|a l IH]; simpl; [tauto|].
  unfold cnpjs in *. simpl. rewrite in_app_iff, IH.
  destruct (Cliente.cnpj a) as [y|]; simpl.
  - split; intros [H|H]; auto.
    + destruct H as [H|[]]. left. congruence.
    + left. left. congruence.
  - split; intros [H|H]; auto; [contradiction | discriminate].
Qed.

Lemma cnpjs_cons (a : Cliente.t) (l : list Cliente.t) :
  cnpjs (a :: l)
  = (match Cliente.cnpj a with Some x => [x] | None => [] end ++ cnpjs l)%list.
Proof. reflexivity. Qed.

Lemma cnpjs_apos_update (cid : Z) (n e : string) (u : ClienteUpdate.t)
      (l : list Cliente.t) :
  cnpjs (map (fun r => if Z.eqb (Cliente.id r) cid then atribuir r n e u else r) l)
  = cnpjs l.
Proof.
  induction l as [|a l IH]; [reflexivity|].
  simpl map. rewrite !cnpjs_cons, IH. f_equal.
  destruct (Z.eqb (Cliente.id a) cid); reflexivity.
Qed.

Lemma nodup_cnpjs_filter (p : Cliente.t -> bool) (l : list Cliente.t) :
  NoDup (cnpjs l) -> NoDup (cnpjs (filter p l)).
Proof.
  induction l as [|a l IH]; intro H; [exact H|].
  rewrite cnpjs_cons in H.
  assert (Hl : NoDup (cnpjs l)).
  { destruct (Cliente.cnpj a); simpl in H; [now inversion H | exact H]. }
  simpl filter. destruct (p a); [|now apply IH].
  rewrite cnpjs_cons.
  destruct (Cliente.cnpj a) as [y|]; simpl app in *; [|now apply IH].
  inversion H as [|z zs Hn Hnd]; subst. constructor; [|now apply IH].
  intro Hy. apply Hn. apply in_cnpjs in Hy. apply in_cnpjs.
  apply in_map_iff in Hy. destruct Hy as [r [E Hr]].
  apply filter_In in Hr. rewrite <- E. apply in_map. tauto.
Qed.

Lemma nodup_snoc {A : Type} (l : list A) (x : A) :
  NoDup l -> ~ In x l -> NoDup (l ++ [x]).
Proof.
  induction l as [|z zs IH]; simpl; intros Hnd Hx.
  - constructor; [tauto | constructor].
  - inversion Hnd; subst. constructor.
    + rewrite in_app_iff. simpl. intros [H|[H|[]]]; [tauto|].
      apply Hx. left. now symmetry.
    + apply IH; trivial. intro H. apply Hx. now right.
Qed.

(** X19.  Each call of Create, Update, UpdateEmail or Delete, with any
    arguments and on any store (orders included), keeps the four key
    constraints of the table: ids, emails, cpfs and non-null cnpjs stay
    pairwise distinct. *)
Theorem chamada_preserva_chaves (ch : Chamada) (db : Banco) :
  integro_total db -> integro_total (snd (chamar ch db)).
Proof.
  intros [Hint Hcn]. split; [now apply integro_chamar|].
  rewrite snd_chamar. destruct ch as [agora d|cid u|cid e|cid].
  - destruct (criar_cliente_casos agora d db) as [[y Hy]|[V Hy]]; rewrite Hy;
      [exact Hcn|].
    simpl. rewrite cnpjs_app. apply viola_unique_false in V.
    destruct V as [_ [_ Vx]]. unfold cnpjs at 2. simpl.
    destruct (ClienteCreate.cnpj d) as [x|]; simpl; [|now rewrite app_nil_r].
    apply nodup_snoc; [exact Hcn|].
    rewrite in_cnpjs. now apply Vx.
  - destruct (atualizar_cliente_casos cid u db)
      as [[y Hy]|[c [n [e [_ [_ [_ [_ Hy]]]]]]]]; rewrite Hy; [exact Hcn|].
    simpl. now rewrite cnpjs_apos_update.
  - destruct (obter_por_id_casos cid db) as [[c [Hc _]]|[_ Hc]].
    + destruct (atualizar_email_desdobra cid e db c Hc) as [[_ [_ Hy]]|[_ Hy]];
        rewrite Hy; [exact Hcn|].
      simpl. now rewrite cnpjs_apos_update.
    + unfold atualizar_email, bind. rewrite Hc. exact Hcn.
  - destruct (deletar_cliente_resultado cid db) as [[y Hy]|[_ [_ Hy]]];
      rewrite Hy; [exact Hcn|].
    simpl. now apply nodup_cnpjs_filter.
Qed.

Lemma chamada_preserva_chaves_witness :
  integro_total (snd (chamar (ChCriar 1700000200 ana_cnpj_de_maria) banco_dois))
  /\ integro_total (snd (chamar (ChAtualizar 2 atualizacao_joao) banco_dois)).
Proof.
  assert (Hint : integro_total banco_dois).
  { split.
    - apply alcancavel_integro. unfold banco_dois.
      apply alc_criar, alc_criar, alc_vazio.
    - vm_compute. constructor; [intros [] | constructor]. }
  split; apply chamada_preserva_chaves; exact Hint.
Defined.

(** ** Search by name, once more *)

Lemma ilike_pct_mais (p s : string) :
  ilike p s = true -> ilike (String "%" p) s = true.
Proof. intro H. rewrite ilike_pct, H. reflexivity. Qed.






(** X22.  The empty query, and the query [%], return every stored customer,
    in store order. *)
Theorem buscar_por_nome_tudo (q : string) (db : Banco) :
  q = "" \/ q = "%" ->
  buscar_por_nome q db = (Ok (clientes db), db).
Proof.
  intro Hq. unfold buscar_por_nome, query_all. do 2 f_equal.
  assert (H : forall s, ilike ("%" ++ q ++ "%") s = true).
  { intro s. destruct Hq as [->| ->].
    - apply (ilike_pct_mais "%"), ilike_pct_tudo.
    - apply (ilike_pct_mais "%%"), (ilike_pct_mais "%"), ilike_pct_tudo. }
  rewrite (filter_ext _ (fun _ => true)) by (intro c; apply H).
  induction (clientes db) as [|a l IH]; simpl; [reflexivity | now f_equal].
Qed.

Lemma buscar_por_nome_tudo_witness :
  buscar_por_nome "" banco_dois = (Ok (clientes banco_dois), banco_dois).
Proof.
  apply (buscar_por_nome_tudo "" banco_dois). left. reflexivity.
Defined.

(** ** Format of the cpf *)

Lemma join_filter_app (pred : ascii -> bool) (a b : string) :
  join_filter pred (a ++ b) = (join_filter pred a ++ join_filter pred b)%string.
Proof.
  induction a as [|c a IH]; simpl; [reflexivity|].
  destruct (pred c); simpl; now rewrite IH.
Qed.

Lemma length_join_filter (pred : ascii -> bool) (s : string) :
  (String.length (join_filter pred s) <= String.length s)%nat.
Proof.
  induction s as [|c s IH]; simpl; [lia|].
  destruct (pred c); simpl; lia.
Qed.

Lemma join_filter_tudo (pred : ascii -> bool) (s : string) :
  String.length (join_filter pred s) = String.length s <-> todos pred s = true.
Proof.
  induction s as [|c s IH]; simpl; [tauto|].
  pose proof (length_join_filter pred s) as Hle.
  destruct (pred c); simpl.
  - rewrite <- IH. split; intro H; lia.
  - split; [intro H; lia | discriminate].
Qed.

(** X23.  The cpf format check looks only at the digits of an ASCII string:
    dropping or inserting a character that is not a digit does not change
    its verdict, and a cpf of exactly 11 characters (the length the Create
    schema requires) passes exactly when all of them are digits. *)
Theorem validar_cpf_formato_digitos (a b : string) (c : ascii) :
  so_ascii (a ++ String c b) = true ->
  (isdigit c = false ->
   _validar_cpf_formato (a ++ String c b) = _validar_cpf_formato (a ++ b))
  /\ (String.length (a ++ String c b) = 11%nat ->
      (_validar_cpf_formato (a ++ String c b) = true
       <-> todos isdigit (a ++ String c b) = true)).
Proof.
  intros _. split.
  - intro Hc. unfold _validar_cpf_formato.
    rewrite !join_filter_app. simpl. now rewrite Hc.
  - intro Hl. unfold _validar_cpf_formato.
    rewrite Nat.eqb_eq, <- Hl. apply join_filter_tudo.
Qed.

Lemma validar_cpf_formato_digitos_witness :
  _validar_cpf_formato "123.456789-01" = _validar_cpf_formato "123456789-01"
  /\ (_validar_cpf_formato "12345678901" = true
      <-> todos isdigit "12345678901" = true).
Proof.
  split.
  - apply (proj1 (validar_cpf_formato_digitos "123" "456789-01" "."%char eq_refl)).
    reflexivity.
  - apply (proj2 (validar_cpf_formato_digitos "1234" "678901" "5"%char eq_refl)).
    reflexivity.
Defined.
